(** * Stroke-Data-Analytics: the statistical query engine

    A shallow embedding of [dataset_module.py] (the CSV loader) and of
    [query_module.py] (filtering, the statistics primitives and the query
    catalog), followed by the properties of the engine.

    Numeric model.  A Python [int] is a [Z].  A Python [float] is modelled by
    the rational number it denotes and float arithmetic by exact rational
    arithmetic ([Q]): the rounding of binary floating point, its overflow and
    the non-finite floats (inf, nan) are outside the model.  [round(x, 2)] is
    rounding to the nearest hundredth, ties to even, of the exact value.  A
    sequence of numbers handed to the statistics is a [list Q], an [int]
    standing for the rational it denotes.

    Text is a [string] of bytes; whitespace is ASCII whitespace.  A [dict] is
    a [gmap]; [dict.get] of an absent key is [VNone].  Code that may raise
    returns an [outcome]; a query, which also exports files, runs in [io]. *)

From Stdlib Require Import QArith Qround Lqa ZArith String Ascii List Sorted Permutation.
From stdpp Require Import gmap strings list fin_maps pretty.

Local Open Scope string_scope.
Local Open Scope list_scope.

(** ** Python values, exceptions and builtins *)

Module Builtins.

(** A cell of the dataset: [None], an [int], a [float] or a [str]. *)
Inductive value : Type :=
  | VNone
  | VInt (z : Z)
  | VFloat (q : Q)
  | VStr (s : string).

(** One dataset row: field name to value. *)
Abbreviation record := (gmap string value).

(** A condition set: field name to required value. *)
Abbreviation conditions := (gmap string value).

Inductive exn : Type :=
  | ZeroDivisionError
  | IndexError
  | ValueError (msg : string)
  | TypeError (msg : string)
  | FileNotFoundError (msg : string)
  | Exception (msg : string).

(** The outcome of running a piece of code: a returned value or a raised
    exception. *)
Inductive outcome (A : Type) : Type :=
  | Returns (a : A)
  | Raises (e : exn).
Arguments Returns {A} a.
Arguments Raises {A} e.

#[global] Instance outcome_ret : MRet outcome := @Returns.

#[global] Instance outcome_bind : MBind outcome := fun A B k m =>
  match m with
  | Returns a => k a
  | Raises e => Raises e
  end.

(** [a == b] on numbers. *)
Definition Qeqb (a b : Q) : bool := Qeq_bool a b.

(** [a < b] on numbers. *)
Definition Qltb (a b : Q) : bool := negb (Qle_bool b a).

(** Python's [==] on cell values: an [int] and a [float] are equal when they
    denote the same number; [None] equals only [None]; a [str] equals only the
    same [str]. *)
Definition py_eq (a b : value) : bool :=
  match a, b with
  | VNone, VNone => true
  | VInt x, VInt y => Z.eqb x y
  | VInt x, VFloat q => Qeqb (inject_Z x) q
  | VFloat q, VInt y => Qeqb q (inject_Z y)
  | VFloat p, VFloat q => Qeqb p q
  | VStr s, VStr t => String.eqb s t
  | _, _ => false
  end.

(** Truthiness of a cell value. *)
Definition truthy (v : value) : bool :=
  match v with
  | VNone => false
  | VInt z => negb (Z.eqb z 0)
  | VFloat q => negb (Qeqb q 0)
  | VStr s => negb (String.eqb s "")
  end.

(** [isinstance(v, (int, float))], with the number it denotes. *)
Definition as_number (v : value) : option Q :=
  match v with
  | VInt z => Some (inject_Z z)
  | VFloat q => Some q
  | _ => None
  end.

(** [l[i]]: negative indices count from the end; out of range raises. *)
Definition py_index {A} (l : list A) (i : Z) : outcome A :=
  let n := Z.of_nat (length l) in
  let j := if (i <? 0)%Z then (i + n)%Z else i in
  if ((j <? 0)%Z || (n <=? j)%Z)%bool then Raises IndexError
  else match nth_error l (Z.to_nat j) with
       | Some x => Returns x
       | None => Raises IndexError
       end.

(** [a / b]: true division. *)
Definition py_div (a b : Q) : outcome Q :=
  if Qeqb b 0 then Raises ZeroDivisionError else Returns (a / b)%Q.

(** [sum(l)]. *)
Definition py_sum (l : list Q) : Q := fold_left Qplus l 0%Q.

(** [min(l)] and [max(l)]: the first smallest (largest) element; the empty
    sequence raises. *)
Definition py_min (l : list Q) : outcome Q :=
  match l with
  | [] => Raises (ValueError "min() arg is an empty sequence")
  | x :: r => Returns (fold_left (fun m y => if Qltb y m then y else m) r x)
  end.

Definition py_max (l : list Q) : outcome Q :=
  match l with
  | [] => Raises (ValueError "max() arg is an empty sequence")
  | x :: r => Returns (fold_left (fun m y => if Qltb m y then y else m) r x)
  end.

(** Nearest integer, ties to even. *)
Definition round_half_even (x : Q) : Z :=
  let f := Qfloor x in
  match Qcompare (x - inject_Z f) (1 # 2) with
  | Lt => f
  | Gt => (f + 1)%Z
  | Eq => if Z.even f then f else (f + 1)%Z
  end.

(** [round(x, 2)]. *)
Definition round2 (x : Q) : Q := round_half_even (x * 100) # 100.

(** [math.floor], [math.ceil] and [int] (truncation towards zero). *)
Definition math_floor (x : Q) : Z := Qfloor x.
Definition math_ceil (x : Q) : Z := Qceiling x.
Definition py_int (x : Q) : Z := if Qltb x 0 then Qceiling x else Qfloor x.

(** [round(math.sqrt(v), 2)] on the exact square root: with [w = 10000 v]
    and [r = floor (sqrt w)], the root of [w] is compared with [r + 1/2]
    through the squares.  [math.sqrt] raises on a negative argument. *)
Definition round2_sqrt (v : Q) : outcome Q :=
  if Qltb v 0 then Raises (ValueError "math domain error")
  else
    let w := (v * 10000)%Q in
    let r := Z.sqrt (Qfloor w) in
    let h := ((inject_Z r + (1 # 2)) * (inject_Z r + (1 # 2)))%Q in
    Returns (match Qcompare w h with
             | Lt => r
             | Gt => (r + 1)%Z
             | Eq => if Z.even r then r else (r + 1)%Z
             end # 100).

(** [sorted(l)]: a stable sort that compares with [<] only. *)
Section Sorting.
Context {A : Type} (ltb : A -> A -> bool).

Fixpoint insert_sorted (x : A) (l : list A) : list A :=
  match l with
  | [] => [x]
  | y :: r => if ltb y x then y :: insert_sorted x r else x :: l
  end.

Definition sorted (l : list A) : list A := foldr insert_sorted [] l.

End Sorting.

(** [len(l)]. *)
Definition len {A} (l : list A) : Z := Z.of_nat (length l).

(** A loop whose body may raise. *)
Fixpoint for_each {A S} (body : S -> A -> outcome S) (l : list A) (s : S) : outcome S :=
  match l with
  | [] => Returns s
  | x :: r => s' ← body s x; for_each body r s'
  end.

End Builtins.

(** ** dataset_module.py *)

Module dataset_module.
Import Builtins.

(** *** Text builtins *)

(** The characters [str.strip()] removes, among the ASCII ones: tab, line
    feed, vertical tab, form feed, carriage return, the four separators
    0x1c to 0x1f, and space. *)
Definition is_space (c : ascii) : bool :=
  let n := nat_of_ascii c in
  (((9 <=? n)%nat && (n <=? 13)%nat) || ((28 <=? n)%nat && (n <=? 32)%nat))%bool.

Fixpoint lstrip (s : string) : string :=
  match s with
  | EmptyString => EmptyString
  | String c r => if is_space c then lstrip r else s
  end.

Fixpoint rstrip (s : string) : string :=
  match s with
  | EmptyString => EmptyString
  | String c r =>
    match rstrip r with
    | EmptyString => if is_space c then EmptyString else String c EmptyString
    | r' => String c r'
    end
  end.

(** [s.strip()]. *)
Definition strip (s : string) : string := rstrip (lstrip s).

(** [s.split(sep)] for a one-character separator: never empty. *)
Fixpoint split (sep : ascii) (s : string) : list string :=
  match s with
  | EmptyString => [EmptyString]
  | String c r =>
    if Ascii.eqb c sep then EmptyString :: split sep r
    else match split sep r with
         | w :: ws => String c w :: ws
         | [] => [String c EmptyString]
         end
  end.

Definition comma : ascii := ascii_of_nat 44.
Definition LF : ascii := ascii_of_nat 10.
Definition CR : ascii := ascii_of_nat 13.

(** Text mode with universal newlines: CR LF and a lone CR are read as LF. *)
Fixpoint universal_newlines (s : string) : string :=
  match s with
  | EmptyString => EmptyString
  | String c r =>
    if Ascii.eqb c CR then
      match r with
      | String d r' => if Ascii.eqb d LF then String LF (universal_newlines r')
                       else String LF (universal_newlines r)
      | EmptyString => String LF EmptyString
      end
    else String c (universal_newlines r)
  end.

(** The lines a text file yields, each with its terminator; the last line
    may lack one. *)
Fixpoint lines_of (s : string) : list string :=
  match s with
  | EmptyString => []
  | String c r =>
    if Ascii.eqb c LF then String c EmptyString :: lines_of r
    else match lines_of r with
         | l :: ls => String c l :: ls
         | [] => [String c EmptyString]
         end
  end.

(** *** Number parsing *)

Definition digit_of (c : ascii) : option Z :=
  let n := nat_of_ascii c in
  if ((48 <=? n)%nat && (n <=? 57)%nat)%bool then Some (Z.of_nat (n - 48)) else None.

Definition underscore : ascii := ascii_of_nat 95.

(** A digit part: decimal digits, single underscores allowed between two
    digits.  [prev] tells whether the previous character was a digit. *)
Fixpoint digit_part (prev : bool) (s : string) : option (list Z) :=
  match s with
  | EmptyString => if prev then Some [] else None
  | String c r =>
    match digit_of c with
    | Some d => cons d <$> digit_part true r
    | None => if (Ascii.eqb c underscore && prev)%bool then digit_part false r else None
    end
  end.

Definition digits_value (ds : list Z) : Z := fold_left (fun acc d => (10 * acc + d)%Z) ds 0%Z.

(** An optional sign: the sign factor and the rest. *)
Definition split_sign (s : string) : Z * string :=
  match s with
  | String c r =>
    if Ascii.eqb c (ascii_of_nat 45) then ((-1)%Z, r)
    else if Ascii.eqb c (ascii_of_nat 43) then (1%Z, r)
    else (1%Z, s)
  | EmptyString => (1%Z, s)
  end.

(** [int(s)] on a stripped string: [None] stands for [ValueError]. *)
Definition parse_int (s : string) : option Z :=
  let '(sign, body) := split_sign s in
  ds ← digit_part false body;
  Some (sign * digits_value ds)%Z.

(** The text before and after the first occurrence of one of two
    characters; [None] when neither occurs. *)
Fixpoint cut (c1 c2 : ascii) (s : string) : option (string * string) :=
  match s with
  | EmptyString => None
  | String c r =>
    if (Ascii.eqb c c1 || Ascii.eqb c c2)%bool then Some (EmptyString, r)
    else '(a, b) ← cut c1 c2 r; Some (String c a, b)
  end.

(** A possibly empty digit part. *)
Definition digit_part_opt (s : string) : option (list Z) :=
  match s with
  | EmptyString => Some []
  | _ => digit_part false s
  end.

Definition pow10 (e : Z) : Q :=
  if (e <? 0)%Z then (1 / inject_Z (10 ^ (- e)))%Q else inject_Z (10 ^ e).

(** [float(s)] on a stripped string, for the finite decimal literals:
    sign, digits with an optional fraction (one of the two sides of the point
    may be empty), optional exponent.  [None] stands for [ValueError].  The
    spellings of the non-finite floats (inf, infinity, nan), which [float]
    also accepts, denote no number of this model and are left unparsed. *)
Definition parse_float (s : string) : option Q :=
  let '(sign, body) := split_sign s in
  let '(mantissa, exponent) :=
    match cut (ascii_of_nat 101) (ascii_of_nat 69) body with
    | Some (m, e) => (m, Some e)
    | None => (body, None)
    end in
  e ← match exponent with
      | None => Some 0%Z
      | Some e => let '(esign, ebody) := split_sign e in
                  ds ← digit_part false ebody; Some (esign * digits_value ds)%Z
      end;
  '(ip, fp) ← match cut (ascii_of_nat 46) (ascii_of_nat 46) mantissa with
              | Some (i, f) =>
                match i, f with
                | EmptyString, EmptyString => None
                | _, _ => i' ← digit_part_opt i; f' ← digit_part_opt f; Some (i', f')
                end
              | None => i' ← digit_part false mantissa; Some (i', [])
              end;
  Some (inject_Z sign * inject_Z (digits_value (ip ++ fp))
        * pow10 (e - Z.of_nat (length fp)))%Q.

(** *** The loader *)

Definition _convert_to_appropriate_type (value_str : string) : value :=
  let value_str := strip value_str in
  if (String.eqb value_str "N/A" || String.eqb value_str "")%bool then VNone
  else if String.eqb value_str "Unknown" then VStr "Unknown"
  else match parse_int value_str with
       | Some z => VInt z
       | None =>
         match parse_float value_str with
         | Some q => VFloat q
         | None => VStr value_str
         end
       end.

(** What [open] finds at a path: no file, a file that cannot be opened, or a
    text whose reading succeeds to the end or raises after the text read so
    far. *)
Inductive file : Type :=
  | Missing
  | OpenFails (error : string)
  | Text (content : string) (read_error : option string).

(** [{header[i]: convert(values[i]) for i in range(expected_columns)}]. *)
Definition make_record (header values : list string) (expected_columns : nat)
  : outcome record :=
  for_each (fun rec i =>
              key ← py_index header (Z.of_nat i);
              cell ← py_index values (Z.of_nat i);
              Returns (<[key := _convert_to_appropriate_type cell]> rec))
           (seq 0 expected_columns) ∅.

(** The body of the loop over the data lines. *)
Definition load_line (header : list string) (data : list record) (line : string)
  : outcome (list record) :=
  if String.eqb (strip line) "" then Returns data
  else
    let values := map strip (split comma (strip line)) in
    if (length values =? length header)%nat then
      rec ← make_record header values (length header);
      Returns (data ++ [rec])
    else Returns data.

(** [str(e)] of a caught exception. *)
Definition exn_message (e : exn) : string :=
  match e with
  | ZeroDivisionError => "division by zero"
  | IndexError => "list index out of range"
  | ValueError msg | TypeError msg | FileNotFoundError msg | Exception msg => msg
  end.

(** [except Exception as e: raise Exception(...)]. *)
Definition wrap (e : string) : exn :=
  Exception ("An error occurred while reading the dataset: " +:+ e).

Definition load_data (fs : string -> file) (filepath : string)
  : outcome (list record * list string) :=
  match fs filepath with
  | Missing => Raises (FileNotFoundError ("Dataset file not found at: " +:+ filepath))
  | OpenFails e => Raises (wrap e)
  | Text content read_error =>
    match lines_of (universal_newlines content) with
    | [] =>
      match read_error with
      | Some e => Raises (wrap e)
      | None => Returns ([], [])
      end
    | header_line :: lines =>
      let header := map strip (split comma (strip header_line)) in
      match for_each (load_line header) lines [] with
      | Raises e => Raises (wrap (exn_message e))
      | Returns data =>
        match read_error with
        | Some e => Raises (wrap e)
        | None => Returns (data, header)
        end
      end
    end
  end.

End dataset_module.

(** ** query_module.py *)

Module query_module.
Import Builtins.

(** What a query returns or exports: a scalar, the mode list, a list of
    records, the occurrence counts of category values, or a mapping from
    metric name (or group label) to such objects. *)
#[warnings="-register-all"] Inductive pyobj : Type :=
  | ONone
  | OInt (z : Z)
  | ONum (q : Q)
  | OStr (s : string)
  | OList (l : list Q)
  | ORecords (l : list record)
  | OCounts (l : list (value * Z))
  | ODict (d : gmap string pyobj).

(** A statistic that may be [None]. *)
Definition of_stat (o : option Q) : pyobj :=
  match o with
  | Some q => ONum q
  | None => ONone
  end.

(** A dict display [{k1: v1, ...}]: a later binding of a key replaces an
    earlier one. *)
Definition dict {V} (l : list (string * V)) : gmap string V :=
  fold_left (fun d kv => <[kv.1 := kv.2]> d) l ∅.

(** [record.get(key)]. *)
Definition get (r : record) (key : string) : value := default VNone (r !! key).

(** [all(record.get(key) == value for key, value in conditions.items())]. *)
Definition record_matches (r : record) (c : conditions) : bool :=
  forallb (fun kv => py_eq (get r kv.1) kv.2) (map_to_list c).

(** The condition set may be absent ([None]); [not conditions] holds for
    [None] and for the empty dict. *)
Definition no_conditions (c : option conditions) : bool :=
  match c with
  | None => true
  | Some d => bool_decide (d = ∅)
  end.

Definition _filter_data (data : list record) (c : option conditions) : list record :=
  if no_conditions c then data
  else
    fold_left (fun filtered r =>
                 if record_matches r (default ∅ c) then filtered ++ [r] else filtered)
              data [].

Definition _get_numeric_values (data : list record) (feature : string)
    (c : option conditions) : list Q :=
  fold_left (fun values r =>
               match as_number (get r feature) with
               | Some x => values ++ [x]
               | None => values
               end)
            (if negb (no_conditions c) then _filter_data data c else data) [].

Definition _calculate_mean (numbers : list Q) : outcome (option Q) :=
  match numbers with
  | [] => Returns None
  | _ => q ← py_div (py_sum numbers) (inject_Z (len numbers)); Returns (Some (round2 q))
  end.

Definition _calculate_median (numbers : list Q) : outcome (option Q) :=
  match numbers with
  | [] => Returns None
  | _ =>
    let numbers := sorted Qltb numbers in
    let mid := (len numbers / 2)%Z in
    if (len numbers mod 2 =? 0)%Z then
      a ← py_index numbers (mid - 1);
      b ← py_index numbers mid;
      q ← py_div (a + b) 2;
      Returns (Some (round2 q))
    else
      x ← py_index numbers mid;
      Returns (Some (round2 x))
  end.

(** The occurrence counts of [Counter(items)], keys in first-seen order. *)
Section Mode.
Context {A : Type} (eqb ltb : A -> A -> bool).

Fixpoint counter_add (counts : list (A * Z)) (x : A) : list (A * Z) :=
  match counts with
  | [] => [(x, 1%Z)]
  | (k, n) :: rest =>
    if eqb k x then (k, (n + 1)%Z) :: rest else (k, n) :: counter_add rest x
  end.

Definition Counter (items : list A) : list (A * Z) := fold_left counter_add items [].

(** [max] of a non-empty sequence of counts. *)
Definition max_of (l : list Z) : Z :=
  match l with
  | [] => 0%Z
  | x :: r => fold_left Z.max r x
  end.

Definition _calculate_mode (items : list (option A)) : list A :=
  let valid_items := omap id items in
  match valid_items with
  | [] => []
  | _ =>
    let counts := Counter valid_items in
    let max_count := max_of (map snd counts) in
    sorted ltb (map fst (filter (fun kc => bool_decide (kc.2 = max_count)) counts))
  end.

End Mode.

(** The mode of a sequence of numbers. *)
Definition mode_of (numbers : list Q) : list Q :=
  _calculate_mode Qeqb Qltb (map Some numbers).

Definition _calculate_std_dev (numbers : list Q) (mean_val : option Q) : outcome (option Q) :=
  if (bool_decide (numbers = []) || (len numbers <? 2)%Z)%bool then Returns None
  else
    mean_val ← match mean_val with
               | Some m => Returns (Some m)
               | None => _calculate_mean numbers
               end;
    match mean_val with
    | None => Raises (TypeError "unsupported operand type(s) for -")
    | Some m =>
      variance ← py_div (py_sum (map (fun x => (x - m) * (x - m))%Q numbers))
                        (inject_Z (len numbers - 1));
      s ← round2_sqrt variance;
      Returns (Some s)
    end.

Definition _calculate_percentile (numbers : list Q) (percentile : Q) : outcome (option Q) :=
  if (bool_decide (numbers = [])
      || negb (Qle_bool 0 percentile && Qle_bool percentile 100))%bool
  then Returns None
  else
    let numbers := sorted Qltb numbers in
    r ← py_div percentile 100;
    let k := (inject_Z (len numbers - 1) * r)%Q in
    let f := math_floor k in
    let c := math_ceil k in
    if (f =? c)%Z then
      x ← py_index numbers (py_int k);
      Returns (Some (round2 x))
    else
      a ← py_index numbers f;
      b ← py_index numbers c;
      Returns (Some (round2 (a * (inject_Z c - k) + b * (k - inject_Z f))))
  .

(** *** Export

    [save_results_csv] writes one file and never raises: every failure of the
    write is caught inside it.  A query is run in [io], which records the
    exports it performed, in order, next to its outcome. *)

Record export_call : Type := Export { export_data : pyobj; export_filename : string }.

Record io (A : Type) : Type := Run { exported : list export_call; result : outcome A }.
Arguments Run {A} exported result.
Arguments exported {A} i.
Arguments result {A} i.

#[global] Instance io_ret : MRet io := fun A a => Run [] (Returns a).

#[global] Instance io_bind : MBind io := fun A B k m =>
  match result m with
  | Returns a => Run (exported m ++ exported (k a)) (result (k a))
  | Raises e => Run (exported m) (Raises e)
  end.

(** Pure code run inside a query. *)
Definition lift {A} (o : outcome A) : io A := Run [] o.

(** [c.lower()] on one character and [s.lower()]. *)
Definition lower_ascii (c : ascii) : ascii :=
  let n := nat_of_ascii c in
  if ((65 <=? n)%nat && (n <=? 90)%nat)%bool then ascii_of_nat (n + 32) else c.

Fixpoint lower (s : string) : string :=
  match s with
  | EmptyString => EmptyString
  | String c r => String (lower_ascii c) (lower r)
  end.

(** [s.endswith(suffix)]. *)
Definition endswith (s suffix : string) : bool :=
  let n := String.length s in
  let m := String.length suffix in
  ((m <=? n)%nat && String.eqb (substring (n - m) m s) suffix)%bool.

Definition save_results_csv (data_to_save : pyobj) (filename : string) : io unit :=
  let filename := if negb (endswith (lower filename) ".csv") then filename +:+ ".csv"
                  else filename in
  Run [Export data_to_save filename] (Returns tt).

(** *** The query catalog *)

Definition query_smokers_hypertension_stroke (data : list record) : io pyobj :=
  let smoking_statuses := ["Formerly smoked"; "smokes"] in
  let ages :=
    fold_left (fun ages status =>
                 ages ++ _get_numeric_values data "Age"
                           (Some (dict [("Hypertension", VInt 1);
                                        ("Stroke Occurrence", VInt 1);
                                        ("Smoking Status", VStr status)])))
              smoking_statuses [] in
  result ← lift
    match ages with
    | [] => Returns (ODict (dict
              [("message", OStr "No data found for smokers with hypertension who had a stroke")]))
    | _ =>
      average_age ← _calculate_mean ages;
      median_age ← _calculate_median ages;
      Returns (ODict (dict
        [("description", OStr "Smokers with hypertension who had a stroke");
         ("count", OInt (len ages));
         ("average_age", of_stat average_age);
         ("median_age", of_stat median_age);
         ("modal_age", OList (mode_of ages))]))
    end;
  save_results_csv result "smokers_hypertension_stroke.csv";;
  mret result.

Definition query_heart_disease_stroke (data : list record) : io pyobj :=
  let conditions := dict [("Heart Disease", VInt 1); ("Stroke Occurrence", VInt 1)] in
  let ages := _get_numeric_values data "Age" (Some conditions) in
  let glucose_levels := _get_numeric_values data "Average Glucose Level" (Some conditions) in
  result ← lift
    match ages with
    | [] => Returns (ODict (dict
              [("message", OStr "No data found for patients with heart disease who had a stroke")]))
    | _ =>
      average_age ← _calculate_mean ages;
      median_age ← _calculate_median ages;
      average_glucose_level ← _calculate_mean glucose_levels;
      Returns (ODict (dict
        [("description", OStr "Heart disease patients who had a stroke");
         ("count", OInt (len ages));
         ("average_age", of_stat average_age);
         ("median_age", of_stat median_age);
         ("modal_age", OList (mode_of ages));
         ("average_glucose_level", of_stat average_glucose_level)]))
    end;
  save_results_csv result "heart_disease_stroke_stats.csv";;
  mret result.

(** A set comprehension: the distinct values (under [==]) of a sequence.
    Python leaves the iteration order of a set unspecified; here it is the
    order of first occurrence. *)
Definition py_set (l : list value) : list value :=
  fold_left (fun s v => if existsb (py_eq v) s then s else s ++ [v]) l [].

(** The values of one field that are truthy and not the excluded one. *)
Definition field_values (data : list record) (field : string) (keep : value -> bool)
  : list value :=
  py_set (filter (fun v => (truthy v && keep v)%bool) (map (fun r => get r field) data)).

Section Grouped.
(** [repr] of a float, used when a group value is formatted into a label. *)
Context (float_repr : Q -> string).

(** [str(v)] as an f-string formats it. *)
Definition py_str (v : value) : string :=
  match v with
  | VNone => "None"
  | VInt z => pretty z
  | VFloat q => float_repr q
  | VStr s => s
  end.

Definition query_hypertension_gender_stroke (data : list record) : io pyobj :=
  let genders := field_values data "Gender" (fun v => negb (py_eq v (VStr "Other"))) in
  results ← lift (for_each (fun results gender =>
    for_each (fun results sl =>
      let '(stroke_status, label) := sl in
      let conditions := dict [("Hypertension", VInt 1);
                              ("Stroke Occurrence", VInt stroke_status);
                              ("Gender", gender)] in
      let ages := _get_numeric_values data "Age" (Some conditions) in
      let key := py_str gender +:+ "_Hypertension_" +:+ label in
      entry ← match ages with
              | [] => Returns (ODict (dict [("count", OInt 0); ("message", OStr "No data")]))
              | _ =>
                average_age ← _calculate_mean ages;
                median_age ← _calculate_median ages;
                Returns (ODict (dict
                  [("count", OInt (len ages));
                   ("average_age", of_stat average_age);
                   ("median_age", of_stat median_age);
                   ("modal_age", OList (mode_of ages))]))
              end;
      Returns (<[key := entry]> results))
      [(1%Z, "Stroke"); (0%Z, "NoStroke")] results)
    genders ∅);
  save_results_csv (ODict results) "hypertension_gender_stroke.csv";;
  mret (ODict results).

Definition query_smoking_stroke (data : list record) : io pyobj :=
  let smoking_statuses := field_values data "Smoking Status" (fun _ => true) in
  results ← lift (for_each (fun results status =>
    for_each (fun results sl =>
      let '(stroke_status, label) := sl in
      let conditions := dict [("Smoking Status", status);
                              ("Stroke Occurrence", VInt stroke_status)] in
      let ages := _get_numeric_values data "Age" (Some conditions) in
      let key := py_str status +:+ "_" +:+ label in
      entry ← match ages with
              | [] => Returns (ODict (dict [("count", OInt 0); ("message", OStr "No data")]))
              | _ =>
                average_age ← _calculate_mean ages;
                median_age ← _calculate_median ages;
                Returns (ODict (dict
                  [("count", OInt (len ages));
                   ("average_age", of_stat average_age);
                   ("median_age", of_stat median_age);
                   ("modal_age", OList (mode_of ages))]))
              end;
      Returns (<[key := entry]> results))
      [(1%Z, "Stroke"); (0%Z, "NoStroke")] results)
    smoking_statuses ∅);
  save_results_csv (ODict results) "smoking_stroke.csv";;
  mret (ODict results).

End Grouped.

Definition query_residence_stroke (data : list record) : io pyobj :=
  results ← lift (for_each (fun results residence =>
      let ages := _get_numeric_values data "Age"
                    (Some (dict [("Residence Type", VStr residence);
                                 ("Stroke Occurrence", VInt 1)])) in
      entry ← match ages with
              | [] => Returns (ODict (dict [("count", OInt 0);
                                            ("message", OStr ("No data for " +:+ residence))]))
              | _ =>
                average_age ← _calculate_mean ages;
                median_age ← _calculate_median ages;
                Returns (ODict (dict
                  [("description", OStr (residence +:+ " residents with stroke"));
                   ("count", OInt (len ages));
                   ("average_age", of_stat average_age);
                   ("median_age", of_stat median_age);
                   ("modal_age", OList (mode_of ages))]))
              end;
      Returns (<[residence := entry]> results))
    ["Urban"; "Rural"] ∅);
  save_results_csv (ODict results) "residence_stroke.csv";;
  mret (ODict results).

(** The truthy values of one field over a list of records, in order. *)
Definition truthy_values (records : list record) (field : string) : list value :=
  filter (fun v => truthy v : Prop) (map (fun r => get r field) records).

Definition query_dietary_habits_stroke (data : list record) : io pyobj :=
  let habits_stroke :=
    truthy_values (_filter_data data (Some (dict [("Stroke Occurrence", VInt 1)])))
                  "Dietary Habits" in
  let habits_no_stroke :=
    truthy_values (_filter_data data (Some (dict [("Stroke Occurrence", VInt 0)])))
                  "Dietary Habits" in
  let result := ODict (dict
    [("description", OStr "Dietary habits distribution");
     ("stroke", OCounts (Counter py_eq habits_stroke));
     ("no_stroke", OCounts (Counter py_eq habits_no_stroke))]) in
  save_results_csv result "dietary_habits_stroke.csv";;
  mret result.

Definition query_hypertension_stroke_patients (data : list record) : io pyobj :=
  let patients :=
    _filter_data data (Some (dict [("Hypertension", VInt 1); ("Stroke Occurrence", VInt 1)])) in
  save_results_csv (ORecords patients) "hypertension_stroke_patients.csv";;
  mret (ORecords patients).

Definition query_hypertension_stroke_comparison (data : list record) : io pyobj :=
  let stroke_patients :=
    _filter_data data (Some (dict [("Hypertension", VInt 1); ("Stroke Occurrence", VInt 1)])) in
  let no_stroke_patients :=
    _filter_data data (Some (dict [("Hypertension", VInt 1); ("Stroke Occurrence", VInt 0)])) in
  let combined :=
    map (fun p : record => <["Group" := VStr "Stroke"]> p) stroke_patients
    ++ map (fun p : record => <["Group" := VStr "No Stroke"]> p) no_stroke_patients in
  save_results_csv (ORecords combined) "hypertension_stroke_comparison.csv";;
  mret (ODict (dict
    [("hypertension_led_to_stroke", ORecords stroke_patients);
     ("hypertension_did_not_lead_to_stroke", ORecords no_stroke_patients)])).

Definition query_heart_disease_stroke_patients (data : list record) : io pyobj :=
  let patients :=
    _filter_data data (Some (dict [("Heart Disease", VInt 1); ("Stroke Occurrence", VInt 1)])) in
  save_results_csv (ORecords patients) "heart_disease_stroke_patients.csv";;
  mret (ORecords patients).

Definition query_descriptive_statistics (data : list record) (feature_name : string)
    (header : list string) : io pyobj :=
  if negb (bool_decide (feature_name ∈ header)) then
    mret (OStr ("Error: Feature '" +:+ feature_name +:+ "' not found."))
  else
    let numbers := _get_numeric_values data feature_name None in
    match numbers with
    | [] =>
      let result := OStr ("Error: No valid numeric data for '" +:+ feature_name +:+ "'.") in
      save_results_csv result ("descriptive_stats_" +:+ feature_name +:+ ".csv");;
      mret result
    | _ =>
      result ← lift (
        mean ← _calculate_mean numbers;
        std_dev ← _calculate_std_dev numbers None;
        lo ← py_min numbers;
        p25 ← _calculate_percentile numbers 25;
        median ← _calculate_median numbers;
        p75 ← _calculate_percentile numbers 75;
        hi ← py_max numbers;
        Returns (ODict (dict
          [("feature", OStr feature_name);
           ("count", OInt (len numbers));
           ("mean", of_stat mean);
           ("std_dev", of_stat std_dev);
           ("min", ONum (round2 lo));
           ("25%", of_stat p25);
           ("50% (median)", of_stat median);
           ("75%", of_stat p75);
           ("max", ONum (round2 hi))])));
      save_results_csv result ("descriptive_stats_" +:+ feature_name +:+ ".csv");;
      mret result
    end.

(** One of the two parallel bundles of the sleep-hours analysis. *)
Definition sleep_bundle (sleep : list Q) : outcome pyobj :=
  mean ← _calculate_mean sleep;
  median ← _calculate_median sleep;
  std_dev ← _calculate_std_dev sleep None;
  lo ← match sleep with
       | [] => Returns None
       | _ => m ← py_min sleep; Returns (Some (round2 m))
       end;
  p25 ← _calculate_percentile sleep 25;
  p75 ← _calculate_percentile sleep 75;
  hi ← match sleep with
       | [] => Returns None
       | _ => m ← py_max sleep; Returns (Some (round2 m))
       end;
  Returns (ODict (dict
    [("count", OInt (len sleep));
     ("mean", of_stat mean);
     ("median", of_stat median);
     ("mode", OList (mode_of sleep));
     ("std_dev", of_stat std_dev);
     ("min", of_stat lo);
     ("25%", of_stat p25);
     ("75%", of_stat p75);
     ("max", of_stat hi)])).

Definition query_average_sleep_hours_stroke (data : list record) : io pyobj :=
  let sleep_stroke :=
    _get_numeric_values data "Sleep Hours" (Some (dict [("Stroke Occurrence", VInt 1)])) in
  let sleep_no_stroke :=
    _get_numeric_values data "Sleep Hours" (Some (dict [("Stroke Occurrence", VInt 0)])) in
  result ← lift (
    stroke ← sleep_bundle sleep_stroke;
    no_stroke ← sleep_bundle sleep_no_stroke;
    Returns (ODict (dict [("stroke", stroke); ("no_stroke", no_stroke)])));
  save_results_csv result "average_sleep_hours_stroke.csv";;
  mret result.

(** *** The text of an exported table *)

(** [c in s] for one character. *)
Fixpoint occurs (c : ascii) (s : string) : bool :=
  match s with
  | EmptyString => false
  | String d r => (Ascii.eqb d c || occurs c r)%bool
  end.

Definition double_quote : ascii := ascii_of_nat 34.

(** [s.replace(q, q + q)] for the double quote [q]. *)
Fixpoint double_quotes (s : string) : string :=
  match s with
  | EmptyString => EmptyString
  | String c r =>
    if Ascii.eqb c double_quote then String double_quote (String double_quote (double_quotes r))
    else String c (double_quotes r)
  end.

(** [sep.join(l)]. *)
Fixpoint join (sep : string) (l : list string) : string :=
  match l with
  | [] => EmptyString
  | s :: r =>
    match r with
    | [] => s
    | _ => s +:+ sep +:+ join sep r
    end
  end.

Definition line_end : string := String (ascii_of_nat 10) EmptyString.

Section Table.
Context (float_repr : Q -> string).

(** The three characters that make a cell quoted are the comma, the double
    quote and the line feed.  The f-string of the source escapes quotes inside
    its replacement field, which Python accepts from version 3.12 on. *)
Definition _format_csv_value (value : value) : string :=
  match value with
  | VNone => ""
  | _ =>
    let value_str := py_str float_repr value in
    if existsb (fun c => occurs c value_str) [ascii_of_nat 44; double_quote; ascii_of_nat 10]
    then String double_quote (double_quotes value_str +:+ String double_quote EmptyString)
    else value_str
  end.

(** One written row: [','.join(row_values) + '\n'] with
    [row_values = [_format_csv_value(row.get(header)) for header in headers]]. *)
Definition row_line (headers : list string) (row : record) : string :=
  let row_values := map (fun header => _format_csv_value (get row header)) headers in
  join "," row_values +:+ line_end.

(** What [save_results_csv] writes for a list of records, by the headers in
    use (the given ones, or the keys of the first record): the header line
    and one line per record; for the empty list, which takes the last branch,
    [str([])]. *)
Definition records_text (headers : list string) (data_to_save : list record) : string :=
  match data_to_save with
  | [] => "[]" +:+ line_end
  | _ =>
    join "," (map (fun h => _format_csv_value (VStr h)) headers) +:+ line_end
    +:+ fold_right (fun row text => row_line headers row +:+ text) EmptyString data_to_save
  end.

End Table.

End query_module.

(** ** Vocabulary of the properties and concrete inputs *)

Import Builtins dataset_module query_module.

(** The fractional rank [k = (n - 1) * (p / 100)] of the percentile [p] in a
    sequence of [n] numbers. *)
Definition rank (n : nat) (p : Q) : Q := (inject_Z (Z.of_nat n - 1) * (p / 100))%Q.

(** The value at the fractional index [k] of a sorted sequence: the element
    at [k] when [k] is an index, else the linear interpolation between its two
    neighbours. *)
Definition interpolate (L : list Q) (k : Q) : Q :=
  let f := Qfloor k in
  let c := Qceiling k in
  if (f =? c)%Z then nth (Z.to_nat f) L 0%Q
  else (nth (Z.to_nat f) L 0 * (inject_Z c - k) + nth (Z.to_nat c) L 0 * (k - inject_Z f))%Q.

(** The record and the condition set on which exact, typed equality and
    Python's [==] disagree: the float 1.0 against the integer 1. *)
Definition float_one_record : record := dict [("Hypertension", VFloat 1)].
Definition int_one_conditions : conditions := dict [("Hypertension", VInt 1)].

(** The chain of the five quartile statistics of a sequence, with the
    minimum and the maximum as [min] and [max] return them. *)
Definition quartile_chain (S : list Q) : Prop :=
  exists lo q1 med q3 hi : Q,
    py_min S = Returns lo /\
    _calculate_percentile S 25 = Returns (Some q1) /\
    _calculate_median S = Returns (Some med) /\
    _calculate_percentile S 75 = Returns (Some q3) /\
    py_max S = Returns hi /\
    (lo <= q1 /\ q1 <= med /\ med <= q3 /\ q3 <= hi)%Q.

(** The same chain with the minimum and the maximum rounded to two decimals,
    as the descriptive-statistics bundle reports them. *)
Definition rounded_quartile_chain (S : list Q) : Prop :=
  exists lo q1 med q3 hi : Q,
    py_min S = Returns lo /\
    _calculate_percentile S 25 = Returns (Some q1) /\
    _calculate_median S = Returns (Some med) /\
    _calculate_percentile S 75 = Returns (Some q3) /\
    py_max S = Returns hi /\
    (round2 lo <= q1 /\ q1 <= med /\ med <= q3 /\ q3 <= round2 hi)%Q.

(** A one-element sequence whose element, 1 + 1/256, has more than two
    decimals. *)
Definition fine_grained : list Q := [(257 # 256)%Q].

(** Every field of a bundle is the absence marker [None]. *)
Definition only_absent (o : pyobj) : Prop :=
  match o with
  | ODict d => map_Forall (fun _ v => v = ONone) d
  | _ => False
  end.

(** The result has a [message] field. *)
Definition has_message (o : pyobj) : Prop :=
  match o with
  | ODict d => is_Some (d !! "message")
  | _ => False
  end.

(** The bundle of the sleep-hours analysis over the empty sequence. *)
Definition empty_sleep_bundle : pyobj :=
  ODict (dict [("count", OInt 0); ("mean", ONone); ("median", ONone);
               ("mode", OList []); ("std_dev", ONone); ("min", ONone);
               ("25%", ONone); ("75%", ONone); ("max", ONone)]).

(** [x] comes no later than [y] in the order of [<]. *)
Definition no_later {A} (ltb : A -> A -> bool) (x y : A) : Prop := ltb y x = false.

(** How often a value occurs in a sequence, up to [==]. *)
Definition occurrences {A} (eqb : A -> A -> bool) (v : A) (l : list A) : Z :=
  Z.of_nat (length (List.filter (fun x => eqb x v) l)).

(** How many keys of a [Counter] equal a value. *)
Definition key_count {A} (eqb : A -> A -> bool) (counts : list (A * Z)) (v : A) : Z :=
  occurrences eqb v (map fst counts).

(** The count a [Counter] holds for a value: that of the first key equal to
    it, 0 when there is none. *)
Definition get_count {A} (eqb : A -> A -> bool) (counts : list (A * Z)) (v : A) : Z :=
  match find (fun kn => eqb kn.1 v) counts with
  | Some kn => kn.2
  | None => 0%Z
  end.

(** The driving sequences of the analyses: the ages of the smokers with
    hypertension and a stroke, of the heart-disease patients with a stroke, of
    one gender (or smoking status, or residence) group, and the sleep hours
    of one outcome. *)
Definition smokers_ages (data : list record) : list Q :=
  _get_numeric_values data "Age"
    (Some (dict [("Hypertension", VInt 1); ("Stroke Occurrence", VInt 1);
                 ("Smoking Status", VStr "Formerly smoked")]))
  ++ _get_numeric_values data "Age"
       (Some (dict [("Hypertension", VInt 1); ("Stroke Occurrence", VInt 1);
                    ("Smoking Status", VStr "smokes")])).

Definition heart_ages (data : list record) : list Q :=
  _get_numeric_values data "Age"
    (Some (dict [("Heart Disease", VInt 1); ("Stroke Occurrence", VInt 1)])).

Definition gender_ages (data : list record) (gender : value) (stroke_status : Z) : list Q :=
  _get_numeric_values data "Age"
    (Some (dict [("Hypertension", VInt 1); ("Stroke Occurrence", VInt stroke_status);
                 ("Gender", gender)])).

Definition smoking_ages (data : list record) (status : value) (stroke_status : Z) : list Q :=
  _get_numeric_values data "Age"
    (Some (dict [("Smoking Status", status); ("Stroke Occurrence", VInt stroke_status)])).

Definition residence_ages (data : list record) (residence : string) : list Q :=
  _get_numeric_values data "Age"
    (Some (dict [("Residence Type", VStr residence); ("Stroke Occurrence", VInt 1)])).

Definition sleep_hours (data : list record) (stroke_status : Z) : list Q :=
  _get_numeric_values data "Sleep Hours"
    (Some (dict [("Stroke Occurrence", VInt stroke_status)])).

(** The placeholder of a group without data, and the two outcome labels. *)
Definition no_data_entry (message : string) : pyobj :=
  ODict (dict [("count", OInt 0); ("message", OStr message)]).

Definition outcome_labels : list (Z * string) := [(1%Z, "Stroke"); (0%Z, "NoStroke")].

(** The entry of one group of the two analyses grouped by a discovered
    category. *)
Definition age_group_entry (ages : list Q) : outcome pyobj :=
  match ages with
  | [] => Returns (ODict (dict [("count", OInt 0); ("message", OStr "No data")]))
  | _ =>
    average_age ← _calculate_mean ages;
    median_age ← _calculate_median ages;
    Returns (ODict (dict
      [("count", OInt (len ages));
       ("average_age", of_stat average_age);
       ("median_age", of_stat median_age);
       ("modal_age", OList (mode_of ages))]))
  end.

(** The result carries a message: a [message] field of its own, or one in
    the entry of some group. *)
Definition message_shape (o : pyobj) : Prop :=
  has_message o \/
  match o with
  | ODict d => exists group entry, d !! group = Some entry /\ has_message entry
  | _ => False
  end.

(** The loader as the specification words it: the record of a line zips the
    header with the typed cells; a blank line and a line whose number of cells
    differs from the header length give no record. *)
Definition row_of (header : list string) (line : string) : option record :=
  if String.eqb (strip line) "" then None
  else
    let values := map strip (split comma (strip line)) in
    if (length values =? length header)%nat
    then Some (dict (zip header (map _convert_to_appropriate_type values)))
    else None.

(** The whole text processed: the header of the first line and the records of
    all the following lines. *)
Definition parse_text (content : string) : list record * list string :=
  match lines_of (universal_newlines content) with
  | [] => ([], [])
  | header_line :: lines =>
    let header := map strip (split comma (strip header_line)) in
    (omap (row_of header) lines, header)
  end.

(** A file system with one readable file, of three data rows. *)
Definition newline : string := String LF "".

Definition sample_text : string :=
  "Age,Gender" +:+ newline +:+ "30,Male" +:+ newline +:+ "N/A,Female" +:+ newline
  +:+ "25" +:+ newline.

Definition sample_fs (path : string) : file :=
  if String.eqb path "data.csv" then Text sample_text None else Missing.

(** The bundle of ages of the first two analyses: its count is the number of
    ages, its mean and median are numbers, its mode is the mode of the ages,
    and it has no message. *)
Definition is_age_bundle (o : pyobj) (ages : list Q) : Prop :=
  exists (d : gmap string pyobj) (average median : Q),
    o = ODict d /\
    d !! "count" = Some (OInt (len ages)) /\
    d !! "average_age" = Some (ONum average) /\
    d !! "median_age" = Some (ONum median) /\
    d !! "modal_age" = Some (OList (mode_of ages)) /\
    d !! "message" = None.

(** The numeric values of a feature over the whole dataset. *)
Definition feature_numbers (data : list record) (feature_name : string) : list Q :=
  _get_numeric_values data feature_name None.

(** The two condition sets of the patient listings. *)
Definition hypertension_stroke : conditions :=
  dict [("Hypertension", VInt 1); ("Stroke Occurrence", VInt 1)].

Definition hypertension_no_stroke : conditions :=
  dict [("Hypertension", VInt 1); ("Stroke Occurrence", VInt 0)].

Definition heart_disease_stroke : conditions :=
  dict [("Heart Disease", VInt 1); ("Stroke Occurrence", VInt 1)].

(** The sum of the counts of a [Counter]. *)
Definition total_count {A} (counts : list (A * Z)) : Z :=
  fold_right Z.add 0%Z (map snd counts).

(** A text that is written as one unquoted cell and read back as itself: it
    is trimmed, and free of the comma, the double quote and the two line
    terminators. *)
Definition plain_name (h : string) : bool :=
  (String.eqb (strip h) h
   && forallb (fun c => negb (occurs c h)) [comma; double_quote; LF; CR])%bool.

(** The cells on which the export and the loader agree whatever the
    rendering of floats: the integers, the missing marker, and the plain
    texts that the loader types as themselves. *)
Definition round_trip_cell (v : value) : Prop :=
  match v with
  | VNone | VInt _ => True
  | VStr s => plain_name s /\ _convert_to_appropriate_type s = VStr s
  | VFloat _ => False
  end.

(** A record seen through a list of column names. *)
Definition projection (headers : list string) (row : record) : record :=
  dict (zip headers (map (get row) headers)).

(** * Properties *)

(** ** Filtering *)

Section Filter.
Implicit Types (data : list record) (c : conditions) (r : record).

(** A loop that appends the elements passing a test is a filter. *)
Lemma fold_left_append_filter {A} (P : A -> bool) (l acc : list A) :
  fold_left (fun filtered x => if P x then filtered ++ [x] else filtered) l acc
  = acc ++ List.filter P l.
Proof.
  revert acc. induction l as [|x l IH]; intros acc; simpl.
  - by rewrite app_nil_r.
  - rewrite IH. destruct (P x); [by rewrite <- app_assoc | done].
Qed.

Lemma record_matches_spec r c :
  record_matches r c = true <->
  forall k v, c !! k = Some v -> py_eq (get r k) v = true.
Proof.
  unfold record_matches. rewrite forallb_forall. split.
  - intros H k v Hkv. apply (H (k, v)).
    apply list_elem_of_In. by apply elem_of_map_to_list.
  - intros H [k v] Hin. apply H.
    apply elem_of_map_to_list. by apply list_elem_of_In.
Qed.

Lemma no_conditions_empty : no_conditions (Some (∅ : conditions)) = true.
Proof. reflexivity. Qed.

Lemma filter_data_conditions data c :
  c <> ∅ -> _filter_data data (Some c) = List.filter (fun r => record_matches r c) data.
Proof.
  intros Hc. unfold _filter_data, no_conditions.
  rewrite bool_decide_eq_false_2 by done. simpl.
  by rewrite fold_left_append_filter.
Qed.

Lemma filter_data_all data (c : option conditions) :
  no_conditions c = true -> _filter_data data c = data.
Proof. intros H. unfold _filter_data. by rewrite H. Qed.

End Filter.

(** C4, as stated, fails: a record holding the float 1.0 is kept by the
    condition [Hypertension = 1] although its value is not the integer 1. *)
Lemma filter_exact_equality_counterexample :
  ~ (forall r : record,
        r ∈ _filter_data [float_one_record] (Some int_one_conditions) <->
        r ∈ [float_one_record] /\
        forall k v, int_one_conditions !! k = Some v -> get r k = v).
Proof.
  intros H. destruct (H float_one_record) as [H1 _].
  assert (Hin : float_one_record ∈ _filter_data [float_one_record] (Some int_one_conditions)).
  { vm_compute. left. }
  destruct (H1 Hin) as [_ H2].
  specialize (H2 "Hypertension" (VInt 1) eq_refl).
  vm_compute in H2. discriminate.
Qed.

(** C4 (amended): [_filter_data] keeps a record iff its value at every
    conditioned field equals the required value under Python's [==], which
    identifies an integer with the float of the same value but never equates
    a number with a string (the integer 1 is not the string "1"); an empty or
    absent condition set returns all the records unchanged. *)
Theorem filter_data_keeps_matching :
  (forall (data : list record) (c : conditions) (r : record),
      r ∈ _filter_data data (Some c) <->
      r ∈ data /\ forall k v, c !! k = Some v -> py_eq (get r k) v = true) /\
  (forall z s, py_eq (VInt z) (VStr s) = false /\ py_eq (VStr s) (VInt z) = false) /\
  (forall q s, py_eq (VFloat q) (VStr s) = false /\ py_eq (VStr s) (VFloat q) = false) /\
  (forall z q, py_eq (VInt z) (VFloat q) = true <-> (inject_Z z == q)%Q) /\
  (forall data : list record, _filter_data data (Some ∅) = data) /\
  (forall data : list record, _filter_data data None = data).
Proof.
  split; [|split; [|split; [|split; [|split]]]].
  - intros data c r. destruct (decide (c = ∅)) as [->|Hc].
    + rewrite filter_data_all by done. split; [|tauto].
      intros Hin. split; [done|]. intros k v Hkv. by rewrite lookup_empty in Hkv.
    + rewrite filter_data_conditions by done.
      rewrite list_elem_of_In, filter_In, <- list_elem_of_In, record_matches_spec.
      tauto.
  - done.
  - done.
  - intros z q. simpl. unfold Qeqb. apply Qeq_bool_iff.
  - intros data. by apply filter_data_all.
  - intros data. by apply filter_data_all.
Qed.

(** C10: the output of [_filter_data] is an order-preserving subsequence of
    its input, holding each matching record as often as the input does and
    unmodified: it is the input with the non-matching positions removed; with
    an empty (or absent) condition set the input list itself is returned. *)
Theorem filter_data_subsequence :
  (forall (data : list record) (c : option conditions),
      sublist (_filter_data data c) data) /\
  (forall (data : list record) (c : option conditions),
      _filter_data data c
      = List.filter (fun r => (no_conditions c || record_matches r (default ∅ c))%bool) data) /\
  (forall data : list record, _filter_data data (Some ∅) = data) /\
  (forall data : list record, _filter_data data None = data).
Proof.
  assert (Heq : forall (data : list record) (c : option conditions),
      _filter_data data c
      = List.filter (fun r => (no_conditions c || record_matches r (default ∅ c))%bool) data).
  { intros data c. unfold _filter_data. destruct (no_conditions c) eqn:Hc; simpl.
    - induction data as [|r data IH]; simpl; [done|]. by rewrite <- IH.
    - by rewrite fold_left_append_filter. }
  repeat split; try done.
  intros data c. rewrite Heq. generalize (fun r : record => (no_conditions c || record_matches r (default ∅ c))%bool).
  intros P. induction data as [|r data IH]; simpl; [constructor|].
  destruct (P r); by constructor.
Qed.

(** ** Numbers: comparison, rounding, indexing, sorting *)

Section Numbers.
Local Open Scope Q_scope.

Lemma Qltb_lt a b : Qltb a b = true <-> a < b.
Proof.
  unfold Qltb. rewrite negb_true_iff. destruct (Qle_bool b a) eqn:H.
  - apply Qle_bool_iff in H. split; [done|]. intros H'. lra.
  - split; [|done]. intros _. apply Qnot_le_lt. intros H'.
    apply Qle_bool_iff in H'. congruence.
Qed.

Lemma Qltb_ge a b : Qltb a b = false <-> b <= a.
Proof.
  destruct (Qltb a b) eqn:H.
  - apply Qltb_lt in H. split; [done|]. intros H'. lra.
  - split; [|done]. intros _. apply Qnot_lt_le. intros H'.
    apply Qltb_lt in H'. congruence.
Qed.

Lemma Qeqb_eq a b : Qeqb a b = true <-> a == b.
Proof. apply Qeq_bool_iff. Qed.

Lemma Qeqb_neq a b : Qeqb a b = false <-> ~ a == b.
Proof.
  destruct (Qeqb a b) eqn:H.
  - apply Qeqb_eq in H. split; [done|]. tauto.
  - split; [|done]. intros _ H'. apply Qeqb_eq in H'. congruence.
Qed.

(** Rounding to the nearest integer stays within one half. *)
Lemma round_half_even_near x :
  inject_Z (round_half_even x) - (1 # 2) <= x <= inject_Z (round_half_even x) + (1 # 2).
Proof.
  unfold round_half_even.
  pose proof (Qfloor_le x) as Hlo. pose proof (Qlt_floor x) as Hhi.
  rewrite inject_Z_plus in Hhi. change (inject_Z 1) with 1 in Hhi.
  destruct (Qcompare_spec (x - inject_Z (Qfloor x)) (1 # 2)) as [He|Hl|Hg].
  - destruct (Z.even (Qfloor x)).
    + lra.
    + rewrite inject_Z_plus. change (inject_Z 1) with 1. lra.
  - lra.
  - rewrite inject_Z_plus. change (inject_Z 1) with 1. lra.
Qed.

Lemma round_half_even_comp x y : x == y -> round_half_even x = round_half_even y.
Proof.
  intros H. unfold round_half_even.
  rewrite (Qfloor_comp _ _ H).
  assert (Hc : (x - inject_Z (Qfloor y) ?= 1 # 2) = (y - inject_Z (Qfloor y) ?= 1 # 2)).
  { apply Qcompare_comp; [by rewrite H | reflexivity]. }
  by rewrite Hc.
Qed.

Lemma round_half_even_mono x y : x <= y -> (round_half_even x <= round_half_even y)%Z.
Proof.
  intros H. destruct (Z_le_gt_dec (round_half_even x) (round_half_even y)) as [|Hgt]; [done|].
  pose proof (round_half_even_near x) as Hx. pose proof (round_half_even_near y) as Hy.
  assert (Hz : inject_Z (round_half_even y) + 1 <= inject_Z (round_half_even x)).
  { change 1 with (inject_Z 1). rewrite <- inject_Z_plus. rewrite <- Zle_Qle. lia. }
  assert (Heq : x == y) by lra.
  rewrite (round_half_even_comp _ _ Heq) in Hgt. lia.
Qed.

Lemma round2_comp x y : x == y -> round2 x = round2 y.
Proof.
  intros H. unfold round2. f_equal. apply round_half_even_comp. by rewrite H.
Qed.

Lemma round2_mono x y : x <= y -> round2 x <= round2 y.
Proof.
  intros H. unfold round2, Qle. simpl.
  apply Z.mul_le_mono_nonneg_r; [lia|]. apply round_half_even_mono. lra.
Qed.

(** A number with at most two decimals is left unchanged by [round2]. *)
Lemma round2_fixed (z : Z) : round2 (z # 100) == z # 100.
Proof.
  unfold round2. assert (H : (z # 100) * 100 == inject_Z z).
  { unfold Qeq, Qmult, inject_Z. simpl. lia. }
  rewrite (round_half_even_comp _ _ H). unfold round_half_even.
  rewrite Qfloor_Z.
  assert (Hc : (inject_Z z - inject_Z z ?= 1 # 2) = Lt).
  { rewrite <- Qlt_alt. assert (inject_Z z - inject_Z z == 0) as -> by ring. reflexivity. }
  by rewrite Hc.
Qed.

End Numbers.

(** ** Sorting *)

Section SortFacts.
Context {A : Type} (ltb : A -> A -> bool).

Lemma insert_sorted_perm x l : Permutation (insert_sorted ltb x l) (x :: l).
Proof.
  induction l as [|y l IH]; simpl; [done|].
  destruct (ltb y x); [|done].
  rewrite IH. apply perm_swap.
Qed.

Lemma sorted_perm l : Permutation (sorted ltb l) l.
Proof.
  induction l as [|x l IH]; simpl; [done|].
  rewrite insert_sorted_perm. by constructor.
Qed.

Lemma sorted_length l : length (sorted ltb l) = length l.
Proof. apply Permutation_length, sorted_perm. Qed.

Local Abbreviation le := (no_later ltb).

Hypothesis ltb_asym : forall x y, ltb x y = true -> ltb y x = false.
Hypothesis le_trans : forall x y z, le x y -> le y z -> le x z.

Lemma insert_sorted_sorted x l :
  StronglySorted le l -> StronglySorted le (insert_sorted ltb x l).
Proof.
  induction 1 as [|y l Hs IH Hall]; simpl.
  - repeat constructor.
  - destruct (ltb y x) eqn:Hyx.
    + constructor; [done|].
      apply (Permutation_Forall (Permutation_sym (insert_sorted_perm x l))).
      constructor; [by apply ltb_asym | done].
    + constructor; [by constructor|].
      constructor; [done|].
      eapply Forall_impl; [exact Hall|]. intros z Hz. by apply le_trans with y.
Qed.

Lemma sorted_sorted l : StronglySorted le (sorted ltb l).
Proof.
  induction l as [|x l IH]; simpl; [constructor|]. by apply insert_sorted_sorted.
Qed.

End SortFacts.

Section SortedNumbers.
Local Open Scope Q_scope.

Lemma sorted_numbers_sorted (l : list Q) : StronglySorted Qle (sorted Qltb l).
Proof.
  assert (H : StronglySorted (fun x y => Qltb y x = false) (sorted Qltb l)).
  { apply sorted_sorted.
    - intros x y H. apply Qltb_lt in H. apply Qltb_ge. lra.
    - intros x y z H1 H2. apply Qltb_ge in H1, H2. apply Qltb_ge. lra. }
  induction H as [|x L Hs IH Hall]; constructor; [done|].
  eapply Forall_impl; [exact Hall|]. intros y Hy. by apply Qltb_ge.
Qed.

(** In a sorted sequence the elements grow with the index. *)
Lemma sorted_nth_le (L : list Q) (i j : nat) :
  StronglySorted Qle L -> (i <= j)%nat -> (j < length L)%nat ->
  nth i L 0 <= nth j L 0.
Proof.
  intros Hs. revert i j. induction Hs as [|x L Hs IH Hall]; intros i j Hij Hj.
  - simpl in Hj. lia.
  - destruct i as [|i], j as [|j]; simpl in *; try lia.
    + lra.
    + rewrite Forall_forall in Hall. apply Hall, list_elem_of_In, nth_In. lia.
    + apply IH; lia.
Qed.

(** Indexing inside the bounds returns the element. *)
Lemma py_index_in_range {A} (l : list A) (i : Z) (d : A) :
  (0 <= i < len l)%Z -> py_index l i = Returns (nth (Z.to_nat i) l d).
Proof.
  unfold len, py_index. intros H.
  destruct (Z.ltb_spec i 0); [lia|].
  destruct (Z.ltb_spec i 0); [lia|].
  destruct (Z.leb_spec (Z.of_nat (length l)) i); [lia|]. simpl.
  rewrite (nth_error_nth' l d) by lia. done.
Qed.

End SortedNumbers.

(** ** Ranks and interpolation *)

Section Interpolation.
Local Open Scope Q_scope.

Lemma inject_Z_succ z : inject_Z (z + 1) == inject_Z z + 1.
Proof. rewrite inject_Z_plus. reflexivity. Qed.

(** The floor and the ceiling of a rank are indices, and they are equal or
    adjacent. *)
Lemma floor_ceiling_range (k : Q) (m : Z) :
  0 <= k <= inject_Z m ->
  (0 <= Qfloor k <= Qceiling k)%Z /\ (Qceiling k <= m)%Z /\
  (Qceiling k = Qfloor k \/ Qceiling k = (Qfloor k + 1)%Z).
Proof.
  intros [H0 Hm].
  pose proof (Qfloor_le k) as Hf. pose proof (Qlt_floor k) as Hf'.
  pose proof (Qle_ceiling k) as Hc. pose proof (Qceiling_lt k) as Hc'.
  assert (H1 : (0 <= Qfloor k)%Z).
  { change 0%Z with (Qfloor (inject_Z 0)). by apply Qfloor_resp_le. }
  assert (H2 : (Qceiling k <= m)%Z).
  { rewrite <- (Qceiling_Z m). by apply Qceiling_resp_le. }
  assert (H3 : (Qfloor k <= Qceiling k)%Z).
  { rewrite Zle_Qle. lra. }
  assert (H4 : (Qceiling k - 1 < Qfloor k + 1)%Z).
  { rewrite Zlt_Qlt. lra. }
  lia.
Qed.

Lemma rank_range (n : nat) (p : Q) :
  (1 <= n)%nat -> 0 <= p <= 100 ->
  0 <= rank n p <= inject_Z (Z.of_nat n - 1).
Proof.
  intros Hn [Hp0 Hp1]. unfold rank.
  assert (Hm : 0 <= inject_Z (Z.of_nat n - 1)).
  { change 0 with (inject_Z 0). rewrite <- Zle_Qle. lia. }
  assert (Ht : 0 <= p / 100 <= 1).
  { split.
    - apply Qle_shift_div_l; [reflexivity | lra].
    - apply Qle_shift_div_r; [reflexivity | lra]. }
  set (m := inject_Z (Z.of_nat n - 1)) in *. set (t := p / 100) in *.
  split.
  - apply Qmult_le_0_compat; tauto.
  - assert (H : 0 <= m * (1 - t)) by (apply Qmult_le_0_compat; lra).
    lra.
Qed.

Lemma rank_mono (n : nat) (p q : Q) :
  (1 <= n)%nat -> p <= q -> rank n p <= rank n q.
Proof.
  intros Hn Hpq. unfold rank.
  assert (Hm : 0 <= inject_Z (Z.of_nat n - 1)).
  { change 0 with (inject_Z 0). rewrite <- Zle_Qle. lia. }
  assert (Ht : 0 <= q / 100 - p / 100).
  { assert (q / 100 - p / 100 == (q - p) / 100) as -> by field.
    apply Qle_shift_div_l; [reflexivity | lra]. }
  pose proof (Qmult_le_0_compat _ _ Hm Ht) as H.
  lra.
Qed.

(** A convex combination of two ordered numbers lies between them. *)
Lemma between a b f k :
  a <= b -> f <= k <= f + 1 ->
  a <= a * (f + 1 - k) + b * (k - f) <= b.
Proof.
  intros Hab [Hk0 Hk1].
  assert (H1 : 0 <= (b - a) * (k - f)) by (apply Qmult_le_0_compat; lra).
  assert (H2 : 0 <= (b - a) * (f + 1 - k)) by (apply Qmult_le_0_compat; lra).
  split; lra.
Qed.

(** On one segment the interpolation grows with the rank. *)
Lemma segment_mono a b f k k' :
  a <= b -> k <= k' ->
  a * (f + 1 - k) + b * (k - f) <= a * (f + 1 - k') + b * (k' - f).
Proof.
  intros Hab Hk.
  assert (H : 0 <= (b - a) * (k' - k)) by (apply Qmult_le_0_compat; lra).
  lra.
Qed.

Variable L : list Q.
Hypothesis L_sorted : StronglySorted Qle L.

(** The interpolated value lies between the elements at the floor and at the
    ceiling of the rank. *)
Lemma interpolate_between (k : Q) :
  0 <= k <= inject_Z (len L - 1) ->
  nth (Z.to_nat (Qfloor k)) L 0 <= interpolate L k <= nth (Z.to_nat (Qceiling k)) L 0.
Proof.
  intros Hk. destruct (floor_ceiling_range k _ Hk) as (Hf & Hc & Hfc).
  unfold len in *. unfold interpolate.
  destruct (Z.eqb_spec (Qfloor k) (Qceiling k)) as [He|Hne].
  - rewrite <- He. lra.
  - destruct Hfc as [Hfc|Hfc]; [lia|]. rewrite Hfc, inject_Z_succ.
    apply between.
    + apply sorted_nth_le; [done | lia | lia].
    + pose proof (Qfloor_le k). pose proof (Qlt_floor k) as Hlt.
      rewrite inject_Z_succ in Hlt. lra.
Qed.

(** The interpolated value grows with the rank. *)
Lemma interpolate_mono (k k' : Q) :
  0 <= k -> k <= k' -> k' <= inject_Z (len L - 1) ->
  interpolate L k <= interpolate L k'.
Proof.
  intros H0 Hkk Hm.
  assert (Hk : 0 <= k <= inject_Z (len L - 1)) by lra.
  assert (Hk' : 0 <= k' <= inject_Z (len L - 1)) by lra.
  destruct (floor_ceiling_range k _ Hk) as (Hf & Hc & Hfc).
  destruct (floor_ceiling_range k' _ Hk') as (Hf' & Hc' & Hfc').
  destruct (Z_le_gt_dec (Qceiling k) (Qfloor k')) as [Hle|Hgt].
  - apply Qle_trans with (nth (Z.to_nat (Qceiling k)) L 0);
      [by apply interpolate_between|].
    apply Qle_trans with (nth (Z.to_nat (Qfloor k')) L 0);
      [|by apply interpolate_between].
    unfold len in *. apply sorted_nth_le; [done | lia | lia].
  - pose proof (Qfloor_resp_le _ _ Hkk) as Hff.
    assert (Hsame : Qfloor k' = Qfloor k) by lia.
    assert (Hck : Qceiling k = (Qfloor k + 1)%Z) by lia.
    assert (Hck' : Qceiling k' = (Qfloor k + 1)%Z).
    { destruct Hfc' as [He|He]; [|lia].
      pose proof (Qle_ceiling k') as H1. pose proof (Qceiling_lt k) as H2.
      rewrite He, Hsame in H1. rewrite Hck in H2.
      assert (Heq : (Qfloor k + 1 - 1 = Qfloor k)%Z) by lia.
      rewrite Heq in H2. lra. }
    unfold interpolate. rewrite Hsame, Hck, Hck'.
    destruct (Z.eqb_spec (Qfloor k) (Qfloor k + 1)) as [He|_]; [lia|].
    rewrite inject_Z_succ. apply segment_mono; [|done].
    unfold len in *. apply sorted_nth_le; [done | lia | lia].
Qed.

End Interpolation.

(** ** Percentile and median *)

(** Running a bind whose first computation is known. *)
Ltac outcome_simpl := cbn [mbind outcome_bind mret outcome_ret].

Section Quartiles.
Local Open Scope Q_scope.

Lemma len_sorted (numbers : list Q) : len (sorted Qltb numbers) = len numbers.
Proof. unfold len. by rewrite sorted_length. Qed.

Lemma py_div_100 (p : Q) : py_div p 100 = Returns (p / 100).
Proof. reflexivity. Qed.

Lemma py_div_2 (p : Q) : py_div p 2 = Returns (p / 2).
Proof. reflexivity. Qed.

Lemma py_int_nonneg (k : Q) : 0 <= k -> py_int k = Qfloor k.
Proof.
  intros H. unfold py_int. apply Qltb_ge in H. by rewrite H.
Qed.

(** On a non-empty sequence and a percentile within [0, 100] the percentile
    is the rounded interpolation at the rank. *)
Lemma percentile_value (numbers : list Q) (p : Q) :
  numbers <> [] -> 0 <= p <= 100 ->
  _calculate_percentile numbers p
  = Returns (Some (round2 (interpolate (sorted Qltb numbers) (rank (length numbers) p)))).
Proof.
  intros Hne Hp. unfold _calculate_percentile.
  rewrite bool_decide_eq_false_2 by done.
  destruct Hp as [Hp0 Hp1].
  apply Qle_bool_iff in Hp0 as Hb0. apply Qle_bool_iff in Hp1 as Hb1.
  rewrite Hb0, Hb1. cbn [orb andb negb].
  rewrite py_div_100. outcome_simpl.
  rewrite len_sorted. unfold len at 1 2 3. fold (rank (length numbers) p).
  assert (Hn : (1 <= length numbers)%nat) by (destruct numbers; [done | simpl; lia]).
  pose proof (rank_range _ p Hn (conj Hp0 Hp1)) as Hk.
  set (k := rank (length numbers) p) in *.
  destruct (floor_ceiling_range k _ Hk) as (Hf & Hc & Hfc).
  unfold interpolate, math_floor, math_ceil.
  destruct (Z.eqb_spec (Qfloor k) (Qceiling k)) as [He|Hne'].
  - rewrite py_int_nonneg by tauto.
    rewrite (py_index_in_range _ _ 0) by (rewrite len_sorted; unfold len; lia).
    done.
  - rewrite (py_index_in_range _ (Qfloor k) 0) by (rewrite len_sorted; unfold len; lia).
    rewrite (py_index_in_range _ (Qceiling k) 0) by (rewrite len_sorted; unfold len; lia).
    done.
Qed.

Lemma rank_half_odd (m : nat) : rank (2 * m + 1) 50 == inject_Z (Z.of_nat m).
Proof.
  unfold rank.
  assert (H : (Z.of_nat (2 * m + 1) - 1 = 2 * Z.of_nat m)%Z) by lia.
  rewrite H, inject_Z_mult. change (inject_Z 2) with 2. field.
Qed.

Lemma rank_half_even (m : nat) :
  rank (2 * (m + 1)) 50 == inject_Z (Z.of_nat m) + (1 # 2).
Proof.
  unfold rank.
  assert (H : (Z.of_nat (2 * (m + 1)) - 1 = 2 * Z.of_nat m + 1)%Z) by lia.
  rewrite H, inject_Z_plus, inject_Z_mult.
  change (inject_Z 2) with 2. change (inject_Z 1) with 1. field.
Qed.

Lemma floor_half (z : Z) : Qfloor (inject_Z z + (1 # 2)) = z.
Proof.
  pose proof (Qfloor_le (inject_Z z + (1 # 2))) as H1.
  pose proof (Qlt_floor (inject_Z z + (1 # 2))) as H2.
  rewrite inject_Z_succ in H2.
  assert (H3 : (Qfloor (inject_Z z + (1 # 2)) < z + 1)%Z).
  { rewrite Zlt_Qlt, inject_Z_succ. lra. }
  assert (H4 : (z < Qfloor (inject_Z z + (1 # 2)) + 1)%Z).
  { rewrite Zlt_Qlt, inject_Z_succ. lra. }
  lia.
Qed.

Lemma ceiling_half (z : Z) : Qceiling (inject_Z z + (1 # 2)) = (z + 1)%Z.
Proof.
  pose proof (Qle_ceiling (inject_Z z + (1 # 2))) as H1.
  pose proof (Qceiling_lt (inject_Z z + (1 # 2))) as H2.
  assert (H3 : (z < Qceiling (inject_Z z + (1 # 2)))%Z).
  { rewrite Zlt_Qlt. lra. }
  assert (H4 : (Qceiling (inject_Z z + (1 # 2)) - 1 < z + 1)%Z).
  { rewrite Zlt_Qlt, inject_Z_succ. lra. }
  lia.
Qed.

(** On a non-empty sequence the median is the rounded interpolation at the
    rank of the 50th percentile. *)
Lemma median_value (numbers : list Q) :
  numbers <> [] ->
  _calculate_median numbers
  = Returns (Some (round2 (interpolate (sorted Qltb numbers) (rank (length numbers) 50)))).
Proof.
  intros Hne. unfold _calculate_median.
  destruct numbers as [|x0 rest] eqn:Hnum; [done|]. rewrite <- Hnum in *. clear Hnum x0 rest.
  rewrite len_sorted.
  assert (Hn : (1 <= length numbers)%nat) by (destruct numbers; [done | simpl; lia]).
  set (L := sorted Qltb numbers).
  assert (HL : len L = len numbers) by apply len_sorted.
  destruct (Nat.Even_or_Odd (length numbers)) as [[m Hm]|[m Hm]].
  - destruct m as [|m]; [lia|].
    assert (Hlen : len numbers = (2 * (Z.of_nat m + 1))%Z) by (unfold len; lia).
    rewrite Hlen.
    assert (Hmod : ((2 * (Z.of_nat m + 1)) mod 2 = 0)%Z).
    { rewrite Z.mul_comm. apply Z_mod_mult. }
    assert (Hdiv : ((2 * (Z.of_nat m + 1)) / 2 = Z.of_nat m + 1)%Z).
    { rewrite Z.mul_comm. apply Z_div_mult. lia. }
    rewrite Hmod, Hdiv. cbn [Z.eqb].
    rewrite (py_index_in_range _ _ 0) by lia.
    rewrite (py_index_in_range _ _ 0) by lia.
    outcome_simpl. rewrite py_div_2. outcome_simpl.
    do 2 f_equal. apply round2_comp.
    assert (Hr : rank (length numbers) 50 == inject_Z (Z.of_nat m) + (1 # 2)).
    { rewrite Hm. replace (2 * S m)%nat with (2 * (m + 1))%nat by lia.
      apply rank_half_even. }
    unfold interpolate.
    rewrite (Qfloor_comp _ _ Hr), (Qceiling_comp _ _ Hr), floor_half, ceiling_half.
    destruct (Z.eqb_spec (Z.of_nat m) (Z.of_nat m + 1)) as [He|_]; [lia|].
    replace (Z.of_nat m + 1 - 1)%Z with (Z.of_nat m) by lia.
    rewrite Hr, inject_Z_succ. field.
  - assert (Hlen : len numbers = (2 * Z.of_nat m + 1)%Z) by (unfold len; lia).
    rewrite Hlen.
    assert (Hmod : ((2 * Z.of_nat m + 1) mod 2 = 1)%Z).
    { rewrite Z.add_comm, Z.mul_comm, Z_mod_plus_full. done. }
    assert (Hdiv : ((2 * Z.of_nat m + 1) / 2 = Z.of_nat m)%Z).
    { rewrite Z.add_comm, Z.mul_comm, Z_div_plus_full by lia. done. }
    rewrite Hmod, Hdiv. cbn [Z.eqb].
    rewrite (py_index_in_range _ _ 0) by lia.
    outcome_simpl. do 2 f_equal. apply round2_comp.
    assert (Hr : rank (length numbers) 50 == inject_Z (Z.of_nat m)).
    { rewrite Hm. apply rank_half_odd. }
    unfold interpolate.
    rewrite (Qfloor_comp _ _ Hr), (Qceiling_comp _ _ Hr), Qfloor_Z, Qceiling_Z.
    rewrite Z.eqb_refl. reflexivity.
Qed.

End Quartiles.


(** ** Minimum, maximum and the quartile chain *)

Section Extremes.
Local Open Scope Q_scope.

Lemma fold_min_spec (r : list Q) (x : Q) :
  let m := fold_left (fun m y => if Qltb y m then y else m) r x in
  m <= x /\ Forall (fun y => m <= y) r.
Proof.
  revert x. induction r as [|y r IH]; intros x; simpl.
  - split; [lra | constructor].
  - destruct (Qltb y x) eqn:Hyx.
    + apply Qltb_lt in Hyx. destruct (IH y) as [H1 H2].
      split; [lra|]. by constructor.
    + apply Qltb_ge in Hyx. destruct (IH x) as [H1 H2].
      split; [done|]. constructor; [lra | done].
Qed.

Lemma fold_max_spec (r : list Q) (x : Q) :
  let m := fold_left (fun m y => if Qltb m y then y else m) r x in
  x <= m /\ Forall (fun y => y <= m) r.
Proof.
  revert x. induction r as [|y r IH]; intros x; simpl.
  - split; [lra | constructor].
  - destruct (Qltb x y) eqn:Hxy.
    + apply Qltb_lt in Hxy. destruct (IH y) as [H1 H2].
      split; [lra|]. by constructor.
    + apply Qltb_ge in Hxy. destruct (IH x) as [H1 H2].
      split; [done|]. constructor; [lra | done].
Qed.

Lemma py_min_spec (numbers : list Q) :
  numbers <> [] ->
  exists lo, py_min numbers = Returns lo /\ Forall (fun y => lo <= y) numbers.
Proof.
  destruct numbers as [|x r]; [done|]. intros _. eexists. split; [reflexivity|].
  destruct (fold_min_spec r x) as [H1 H2]. by constructor.
Qed.

Lemma py_max_spec (numbers : list Q) :
  numbers <> [] ->
  exists hi, py_max numbers = Returns hi /\ Forall (fun y => y <= hi) numbers.
Proof.
  destruct numbers as [|x r]; [done|]. intros _. eexists. split; [reflexivity|].
  destruct (fold_max_spec r x) as [H1 H2]. by constructor.
Qed.

(** The interpolated value at a rank lies between any lower and any upper
    bound of the sequence. *)
Lemma interpolate_bounded (numbers : list Q) (p lo hi : Q) :
  numbers <> [] -> 0 <= p <= 100 ->
  Forall (fun y => lo <= y) numbers -> Forall (fun y => y <= hi) numbers ->
  lo <= interpolate (sorted Qltb numbers) (rank (length numbers) p) <= hi.
Proof.
  intros Hne Hp Hlo Hhi.
  assert (Hn : (1 <= length numbers)%nat) by (destruct numbers; [done | simpl; lia]).
  pose proof (rank_range _ p Hn Hp) as Hk.
  set (L := sorted Qltb numbers).
  assert (HL : length L = length numbers) by apply sorted_length.
  assert (Hk' : 0 <= rank (length numbers) p <= inject_Z (len L - 1)).
  { unfold len. by rewrite HL. }
  destruct (floor_ceiling_range _ _ Hk) as (Hf & Hc & _).
  pose proof (interpolate_between L (sorted_numbers_sorted numbers) _ Hk') as [H1 H2].
  assert (Hin : forall i, (i < length L)%nat -> lo <= nth i L 0 <= hi).
  { intros i Hi.
    assert (Hmem : nth i L 0 ∈ numbers).
    { rewrite <- (sorted_perm Qltb numbers). by apply list_elem_of_In, nth_In. }
    rewrite Forall_forall in Hlo, Hhi. split; [by apply Hlo | by apply Hhi]. }
  destruct (Hin (Z.to_nat (Qfloor (rank (length numbers) p)))) as [H3 _]; [lia|].
  destruct (Hin (Z.to_nat (Qceiling (rank (length numbers) p)))) as [_ H4]; [lia|].
  lra.
Qed.

Lemma rounded_chain_holds (S : list Q) : S <> [] -> rounded_quartile_chain S.
Proof.
  intros Hne.
  destruct (py_min_spec S Hne) as (lo & Hmin & Hlo).
  destruct (py_max_spec S Hne) as (hi & Hmax & Hhi).
  assert (Hn : (1 <= length S)%nat) by (destruct S; [done | simpl; lia]).
  assert (H25 : 0 <= 25 <= 100) by (split; discriminate).
  assert (H50 : 0 <= 50 <= 100) by (split; discriminate).
  assert (H75 : 0 <= 75 <= 100) by (split; discriminate).
  exists lo, (round2 (interpolate (sorted Qltb S) (rank (length S) 25))),
    (round2 (interpolate (sorted Qltb S) (rank (length S) 50))),
    (round2 (interpolate (sorted Qltb S) (rank (length S) 75))), hi.
  split; [done|]. split; [by apply percentile_value|].
  split; [by apply median_value|]. split; [by apply percentile_value|].
  split; [done|].
  assert (Hmono : forall p q, 0 <= p -> p <= q -> q <= 100 ->
            interpolate (sorted Qltb S) (rank (length S) p)
            <= interpolate (sorted Qltb S) (rank (length S) q)).
  { intros p q Hp Hpq Hq. apply interpolate_mono.
    - apply sorted_numbers_sorted.
    - apply (rank_range _ p Hn). lra.
    - by apply rank_mono.
    - rewrite len_sorted. apply (rank_range _ q Hn). lra. }
  split; [|split; [|split]].
  - apply round2_mono. by apply (interpolate_bounded S 25 lo hi).
  - apply round2_mono. apply Hmono; lra.
  - apply round2_mono. apply Hmono; lra.
  - apply round2_mono. by apply (interpolate_bounded S 75 lo hi).
Qed.

End Extremes.




(** ** The statistics primitives never raise *)

Section Totality.
Local Open Scope Q_scope.

Lemma py_div_nonzero (a b : Q) : ~ b == 0 -> py_div a b = Returns (a / b).
Proof. intros H. unfold py_div. apply Qeqb_neq in H. by rewrite H. Qed.

Lemma inject_Z_nonzero (z : Z) : (z <> 0)%Z -> ~ inject_Z z == 0.
Proof. intros H He. apply H. unfold Qeq in He. simpl in He. lia. Qed.

Lemma mean_returns (numbers : list Q) :
  numbers <> [] ->
  _calculate_mean numbers
  = Returns (Some (round2 (py_sum numbers / inject_Z (len numbers)))).
Proof.
  intros Hne. unfold _calculate_mean. destruct numbers as [|x r] eqn:E; [done|].
  rewrite <- E in *. rewrite py_div_nonzero; [done|].
  apply inject_Z_nonzero. unfold len. rewrite E. simpl. lia.
Qed.

Lemma fold_plus_nonneg (l : list Q) (a : Q) :
  0 <= a -> Forall (fun x => 0 <= x) l -> 0 <= fold_left Qplus l a.
Proof.
  revert a. induction l as [|x l IH]; intros a Ha Hl; simpl; [done|].
  inversion Hl; subst. apply IH; [lra | done].
Qed.

Lemma sum_squares_nonneg (numbers : list Q) (m : Q) :
  0 <= py_sum (map (fun x => (x - m) * (x - m)) numbers).
Proof.
  apply fold_plus_nonneg; [lra|].
  apply Forall_map, Forall_forall. intros x _. simpl.
  destruct (Qlt_le_dec (x - m) 0) as [Hn|Hp].
  - assert (H : 0 <= (m - x) * (m - x)) by (apply Qmult_le_0_compat; lra). lra.
  - by apply Qmult_le_0_compat.
Qed.

Lemma round2_sqrt_returns (v : Q) : 0 <= v -> exists s, round2_sqrt v = Returns s.
Proof.
  intros H. unfold round2_sqrt. apply Qltb_ge in H. rewrite H. by eexists.
Qed.

Lemma std_dev_returns (numbers : list Q) (mean_val : option Q) :
  exists s, _calculate_std_dev numbers mean_val = Returns s.
Proof.
  unfold _calculate_std_dev.
  destruct (bool_decide (numbers = []) || (len numbers <? 2)%Z)%bool eqn:Hg; [by eexists|].
  apply orb_false_iff in Hg as [Hne Hlen].
  apply bool_decide_eq_false in Hne. apply Z.ltb_ge in Hlen.
  assert (Hm : exists m, match mean_val with
                         | Some m => Returns (Some m)
                         | None => _calculate_mean numbers
                         end = Returns (Some m)).
  { destruct mean_val as [m|]; [by eexists|]. rewrite mean_returns by done. by eexists. }
  destruct Hm as [m ->]. outcome_simpl.
  rewrite py_div_nonzero by (apply inject_Z_nonzero; lia). outcome_simpl.
  destruct (round2_sqrt_returns
              (py_sum (map (fun x => (x - m) * (x - m)) numbers) / inject_Z (len numbers - 1)))
    as [s Hs].
  - apply Qle_shift_div_l.
    + change 0 with (inject_Z 0). rewrite <- Zlt_Qlt. lia.
    + rewrite Qmult_0_l. apply sum_squares_nonneg.
  - rewrite Hs. by eexists.
Qed.

Lemma std_dev_short (numbers : list Q) (mean_val : option Q) :
  (length numbers < 2)%nat -> _calculate_std_dev numbers mean_val = Returns None.
Proof.
  intros H. unfold _calculate_std_dev.
  assert (Hl : (len numbers <? 2)%Z = true) by (apply Z.ltb_lt; unfold len; lia).
  rewrite Hl, orb_true_r. done.
Qed.

Lemma percentile_out_of_range (numbers : list Q) (p : Q) :
  ~ (0 <= p <= 100) -> _calculate_percentile numbers p = Returns None.
Proof.
  intros H. unfold _calculate_percentile.
  destruct (Qle_bool 0 p) eqn:H0, (Qle_bool p 100) eqn:H1;
    cbn [andb negb]; rewrite ?orb_true_r; try done.
  exfalso. apply H. split; by apply Qle_bool_iff.
Qed.

Lemma percentile_returns (numbers : list Q) (p : Q) :
  exists v, _calculate_percentile numbers p = Returns v.
Proof.
  destruct numbers as [|x r]; [by eexists|].
  destruct (Qlt_le_dec p 0) as [Hn|H0].
  { rewrite percentile_out_of_range; [by eexists | lra]. }
  destruct (Qlt_le_dec 100 p) as [Hn|H1].
  { rewrite percentile_out_of_range; [by eexists | lra]. }
  rewrite percentile_value by done. by eexists.
Qed.

End Totality.




(** ** The mode *)

Section ModeFacts.
Context {A : Type} (eqb ltb : A -> A -> bool).
Hypothesis eqb_refl : forall x, eqb x x = true.
Hypothesis eqb_sym : forall x y, eqb x y = true -> eqb y x = true.
Hypothesis eqb_trans : forall x y z, eqb x y = true -> eqb y z = true -> eqb x z = true.

Lemma eqb_congr x y v : eqb x y = true -> eqb x v = eqb y v.
Proof.
  intros H. destruct (eqb x v) eqn:Hx, (eqb y v) eqn:Hy; try done.
  - rewrite (eqb_trans y x v) in Hy; [done | by apply eqb_sym | done].
  - rewrite (eqb_trans x y v) in Hx; done.
Qed.

Lemma occurrences_snoc v l x :
  occurrences eqb v (l ++ [x]) = (occurrences eqb v l + if eqb x v then 1 else 0)%Z.
Proof.
  unfold occurrences. rewrite List.filter_app, length_app. simpl.
  destruct (eqb x v); simpl; lia.
Qed.

Lemma occurrences_nonneg v l : (0 <= occurrences eqb v l)%Z.
Proof. unfold occurrences. lia. Qed.

Lemma occurrences_member v l : v ∈ l -> (1 <= occurrences eqb v l)%Z.
Proof.
  unfold occurrences. induction 1 as [v l|v y l _ IH]; simpl.
  - rewrite eqb_refl. simpl. lia.
  - destruct (eqb y v); simpl; lia.
Qed.

Lemma occurrences_positive v l :
  (1 <= occurrences eqb v l)%Z -> exists u, u ∈ l /\ eqb u v = true.
Proof.
  unfold occurrences. induction l as [|y l IH]; simpl; [lia|].
  destruct (eqb y v) eqn:Hy.
  - intros _. exists y. split; [left | done].
  - intros H. destruct (IH H) as (u & Hu & He). exists u. split; [by right | done].
Qed.

Lemma occurrences_congr u v l : eqb u v = true -> occurrences eqb u l = occurrences eqb v l.
Proof.
  intros H. unfold occurrences. do 2 f_equal.
  apply List.filter_ext. intros x.
  destruct (eqb x u) eqn:Hu, (eqb x v) eqn:Hv; try done.
  - rewrite (eqb_trans x u v) in Hv; done.
  - rewrite (eqb_trans x v u) in Hu; [done | done | by apply eqb_sym].
Qed.

(** Adding an item raises the count of the values equal to it by one. *)
Lemma get_count_add counts x v :
  get_count eqb (counter_add eqb counts x) v
  = (get_count eqb counts v + if eqb x v then 1 else 0)%Z.
Proof.
  unfold get_count. induction counts as [|[k n] rest IH]; simpl.
  - destruct (eqb x v); simpl; lia.
  - destruct (eqb k x) eqn:Hkx; simpl.
    + rewrite <- (eqb_congr k x v Hkx). destruct (eqb k v); simpl; lia.
    + destruct (eqb k v) eqn:Hkv; simpl; [|done].
      destruct (eqb x v) eqn:Hxv; [|lia].
      rewrite (eqb_trans k v x) in Hkx; [done | done | by apply eqb_sym].
Qed.

Lemma get_count_Counter_from counts items v :
  get_count eqb (fold_left (counter_add eqb) items counts) v
  = (get_count eqb counts v + occurrences eqb v items)%Z.
Proof.
  revert counts. induction items as [|x items IH]; intros counts; simpl.
  - unfold occurrences. simpl. lia.
  - rewrite IH, get_count_add. unfold occurrences. simpl.
    destruct (eqb x v); simpl; lia.
Qed.

Lemma get_count_Counter items v :
  get_count eqb (Counter eqb items) v = occurrences eqb v items.
Proof. unfold Counter. by rewrite get_count_Counter_from. Qed.

(** The keys of a counter come from the items. *)
Lemma counter_add_keys counts x k n :
  (k, n) ∈ counter_add eqb counts x -> k = x \/ k ∈ map fst counts.
Proof.
  induction counts as [|[k0 n0] rest IH]; simpl.
  - intros H. apply list_elem_of_singleton in H. left. congruence.
  - destruct (eqb k0 x).
    + intros H. apply elem_of_cons in H as [H|H].
      * injection H as -> _. right. left.
      * right. right. apply list_elem_of_fmap. by exists (k, n).
    + intros H. apply elem_of_cons in H as [H|H].
      * injection H as -> _. right. left.
      * destruct (IH H) as [->|Hk]; [by left | right; by right].
Qed.

Lemma Counter_keys_from counts items k n :
  (k, n) ∈ fold_left (counter_add eqb) items counts -> k ∈ items \/ k ∈ map fst counts.
Proof.
  revert counts. induction items as [|x items IH]; intros counts; simpl.
  - intros H. right. apply list_elem_of_fmap. by exists (k, n).
  - intros H. destruct (IH _ H) as [Hk|Hk]; [left; by right|].
    apply list_elem_of_fmap in Hk as ([k' n'] & -> & Hk).
    destruct (counter_add_keys _ _ _ _ Hk) as [->|Hk']; [left; left | by right].
Qed.

Lemma Counter_keys items k n : (k, n) ∈ Counter eqb items -> k ∈ items.
Proof.
  intros H. destruct (Counter_keys_from [] items k n H) as [|H']; [done|].
  by apply elem_of_nil in H'.
Qed.

(** No two keys of a counter are equal: a value has at most one key. *)
Local Abbreviation key_occurrences := (key_count eqb).

Lemma key_occurrences_add counts x v :
  (forall u, key_occurrences counts u <= 1)%Z ->
  (key_occurrences (counter_add eqb counts x) v <= 1)%Z.
Proof.
  unfold key_occurrences, occurrences.
  induction counts as [|[k n] rest IH]; simpl; intros Hinv.
  - destruct (eqb x v); simpl; lia.
  - destruct (eqb k x) eqn:Hkx; simpl.
    + apply (Hinv v).
    + assert (Hrest : forall u,
                (Z.of_nat (length (List.filter (fun y => eqb y u) (map fst rest))) <= 1)%Z).
      { intros u. specialize (Hinv u). simpl in Hinv.
        destruct (eqb k u); simpl in Hinv; lia. }
      specialize (IH Hrest).
      destruct (eqb k v) eqn:Hkv; simpl; [|done].
      (* no key of [rest] and not [x] itself equals [v] *)
      assert (Hnone : length (List.filter (fun y => eqb y v) (map fst (counter_add eqb rest x))) = 0%nat).
      { destruct (List.filter (fun y => eqb y v) (map fst (counter_add eqb rest x)))
          as [|y ys] eqn:Hf; [done|]. exfalso.
        assert (Hy : In y (List.filter (fun y => eqb y v) (map fst (counter_add eqb rest x))))
          by (rewrite Hf; by left).
        apply filter_In in Hy as [Hy Hyv].
        apply list_elem_of_In, list_elem_of_fmap in Hy as ([y' m] & -> & Hy). simpl in Hyv.
        destruct (counter_add_keys _ _ _ _ Hy) as [->|Hy'].
        - rewrite (eqb_trans k v x) in Hkx; [done | done | by apply eqb_sym].
        - specialize (Hinv v). simpl in Hinv. rewrite Hkv in Hinv. simpl in Hinv.
          assert (H1 : (1 <= occurrences eqb v (map fst rest))%Z).
          { rewrite <- (occurrences_congr y' v) by done. by apply occurrences_member. }
          unfold occurrences in H1. lia. }
      rewrite Hnone. lia.
Qed.

Lemma key_occurrences_Counter_from counts items v :
  (forall u, key_occurrences counts u <= 1)%Z ->
  (key_occurrences (fold_left (counter_add eqb) items counts) v <= 1)%Z.
Proof.
  revert counts v. induction items as [|x items IH]; intros counts v Hinv; simpl.
  - apply Hinv.
  - apply IH. intros u. by apply key_occurrences_add.
Qed.

Lemma key_occurrences_Counter items v : (key_occurrences (Counter eqb items) v <= 1)%Z.
Proof.
  apply key_occurrences_Counter_from. intros u. unfold key_occurrences, occurrences. simpl. lia.
Qed.

(** With distinct keys, the count held for a key is the one of its entry. *)
Lemma get_count_key counts k n :
  (forall u, key_occurrences counts u <= 1)%Z ->
  (k, n) ∈ counts -> get_count eqb counts k = n.
Proof.
  unfold get_count, key_occurrences.
  induction counts as [|[k0 n0] rest IH]; intros Hinv Hin.
  - by apply elem_of_nil in Hin.
  - apply elem_of_cons in Hin as [Heq|Hin].
    + injection Heq as <- <-. simpl. by rewrite eqb_refl.
    + simpl. destruct (eqb k0 k) eqn:Hk.
      * exfalso. specialize (Hinv k). unfold occurrences in Hinv. simpl in Hinv.
        rewrite Hk in Hinv. simpl in Hinv.
        assert (H1 : (1 <= occurrences eqb k (map fst rest))%Z).
        { apply occurrences_member, list_elem_of_fmap. by exists (k, n). }
        unfold occurrences in H1. lia.
      * apply IH; [|done]. intros u. specialize (Hinv u).
        unfold occurrences in *. simpl in Hinv. destruct (eqb k0 u); simpl in Hinv; lia.
Qed.

End ModeFacts.

Section ModeTheorem.
Context {A : Type} (eqb ltb : A -> A -> bool).
Hypothesis eqb_refl : forall x, eqb x x = true.
Hypothesis eqb_sym : forall x y, eqb x y = true -> eqb y x = true.
Hypothesis eqb_trans : forall x y z, eqb x y = true -> eqb y z = true -> eqb x z = true.
Hypothesis ltb_asym : forall x y, ltb x y = true -> ltb y x = false.
Hypothesis le_trans : forall x y z, ltb y x = false -> ltb z y = false -> ltb z x = false.

Lemma max_of_spec (l : list Z) :
  l <> [] -> max_of l ∈ l /\ forall x, x ∈ l -> (x <= max_of l)%Z.
Proof.
  destruct l as [|a l]; [done|]. intros _. simpl.
  revert a. induction l as [|b l IH]; intros a; simpl.
  - split; [left|]. intros x Hx. apply list_elem_of_singleton in Hx. lia.
  - destruct (IH (Z.max a b)) as [H1 H2]. split.
    + apply elem_of_cons in H1 as [H1|H1]; [|by do 2 right].
      rewrite H1. destruct (Z.max_spec a b) as [[_ ->]|[_ ->]]; [right; left | left].
    + intros x Hx. apply elem_of_cons in Hx as [->|Hx].
      * specialize (H2 (Z.max a b)). pose proof (H2 ltac:(left)). lia.
      * apply elem_of_cons in Hx as [->|Hx].
        -- specialize (H2 (Z.max a b)). pose proof (H2 ltac:(left)). lia.
        -- apply H2. by right.
Qed.

Lemma occurrences_perm v (l l' : list A) :
  Permutation l l' -> occurrences eqb v l = occurrences eqb v l'.
Proof.
  intros H. unfold occurrences. f_equal. apply Permutation_length.
  induction H; simpl.
  - done.
  - destruct (eqb x v); [by constructor | done].
  - destruct (eqb x v), (eqb y v); try done. apply perm_swap.
  - by etrans.
Qed.

Lemma occurrences_filtered v (P : A * Z -> Prop) `{!forall kc, Decision (P kc)}
    (counts : list (A * Z)) :
  (occurrences eqb v (map fst (filter P counts)) <= occurrences eqb v (map fst counts))%Z.
Proof.
  unfold occurrences. induction counts as [|[k n] rest IH]; simpl; [done|].
  rewrite filter_cons. destruct (decide (P (k, n))); simpl.
  - destruct (eqb k v); simpl; lia.
  - destruct (eqb k v); simpl; lia.
Qed.

(** The entries of the mode are the keys whose count is the largest. *)
Lemma mode_member (items : list (option A)) (v : A) :
  omap id items <> [] ->
  v ∈ _calculate_mode eqb ltb items <->
  (v, max_of (map snd (Counter eqb (omap id items)))) ∈ Counter eqb (omap id items).
Proof.
  intros Hne. unfold _calculate_mode.
  destruct (omap id items) as [|x0 r] eqn:E; [done|]. rewrite <- E. clear Hne.
  rewrite (sorted_perm ltb), list_elem_of_fmap. split.
  - intros ([k n] & -> & Hin). apply list_elem_of_filter in Hin as [Hn Hin].
    apply bool_decide_unpack in Hn. simpl in *. by rewrite <- Hn.
  - intros Hin. eexists. split; [|apply list_elem_of_filter; split; [|exact Hin]].
    + done.
    + by apply bool_decide_pack.
Qed.

(** C8: for every sequence, after the null entries are removed,
    [_calculate_mode] returns the values tied for the largest number of
    occurrences: the result is in ascending order, holds no value twice, every
    value in it occurs in the sequence at least as often as any other value,
    and every value that occurs most often is in it; an empty or all-null
    sequence yields the empty list; and the mode of [1, 1, 2, 2, 3] is
    [1, 2]. *)
Theorem mode_sorted_most_frequent (items : list (option A)) :
  let valid := omap id items in
  let mode := _calculate_mode eqb ltb items in
  StronglySorted (fun x y => ltb y x = false) mode /\
  (forall v, occurrences eqb v mode <= 1)%Z /\
  (forall v, v ∈ mode ->
     v ∈ valid /\ forall w, w ∈ valid -> (occurrences eqb w valid <= occurrences eqb v valid)%Z) /\
  (forall v, v ∈ valid ->
     (forall w, w ∈ valid -> (occurrences eqb w valid <= occurrences eqb v valid)%Z) ->
     exists u, u ∈ mode /\ eqb u v = true) /\
  (valid = [] -> mode = []) /\
  mode_of [1; 1; 2; 2; 3]%Q = [1; 2]%Q.
Proof.
  intros valid mode.
  assert (Hmode : mode = match valid with
                         | [] => []
                         | _ => sorted ltb (map fst
                                  (filter (fun kc => bool_decide
                                     (kc.2 = max_of (map snd (Counter eqb valid))))
                                     (Counter eqb valid)))
                         end) by done.
  assert (Hmember : valid <> [] -> forall v,
            v ∈ mode <->
            (v, max_of (map snd (Counter eqb valid))) ∈ Counter eqb valid).
  { intros Hne v. by apply mode_member. }
  clearbody mode valid.
  assert (Hdistinct : forall u, (occurrences eqb u (map fst (Counter eqb valid)) <= 1)%Z).
  { intros u. by apply (key_occurrences_Counter eqb). }
  destruct valid as [|x0 r] eqn:E.
  { subst mode. split; [constructor|]. split; [intros v; unfold occurrences; simpl; lia|].
    split; [intros v Hv; by apply elem_of_nil in Hv|].
    split; [intros v Hv; by apply elem_of_nil in Hv|]. done. }
  rewrite <- E in *.
  assert (Hne : valid <> []) by (rewrite E; done).
  specialize (Hmember Hne).
  assert (Hmode' : mode = sorted ltb (map fst
                     (filter (fun kc => bool_decide
                        (kc.2 = max_of (map snd (Counter eqb valid))))
                        (Counter eqb valid)))).
  { rewrite Hmode, E. done. }
  clear Hmode.
  split; [rewrite Hmode'; by apply sorted_sorted|].
  split.
  { intros v. rewrite Hmode', (occurrences_perm v _ _ (sorted_perm ltb _)).
    etrans; [apply occurrences_filtered | apply Hdistinct]. }
  assert (Hcne : map snd (Counter eqb valid) <> []).
  { assert (H1 : (1 <= get_count eqb (Counter eqb valid) x0)%Z).
    { rewrite get_count_Counter by done. apply occurrences_member; [done|]. rewrite E. left. }
    unfold get_count in H1. destruct (Counter eqb valid) as [|kn c]; [simpl in H1; lia | done]. }
  destruct (max_of_spec _ Hcne) as [Hmax_in Hmax_le].
  apply list_elem_of_fmap in Hmax_in as ([kmax nmax] & Hnmax & Hmax_in). simpl in Hnmax.
  split; [|split; [|split; [done | done]]].
  - intros v Hv. apply Hmember in Hv.
    split; [by apply (Counter_keys eqb) in Hv|].
    intros w Hw.
    rewrite <- (get_count_Counter eqb) by done.
    rewrite <- (get_count_Counter eqb eqb_sym eqb_trans valid v).
    rewrite (get_count_key eqb eqb_refl _ _ _ Hdistinct Hv).
    unfold get_count. destruct (find _ _) as [[k n]|] eqn:Hf.
    + apply find_some in Hf as [Hf _]. apply Hmax_le, list_elem_of_fmap.
      exists (k, n). split; [done | by apply list_elem_of_In].
    + rewrite Hnmax. pose proof (occurrences_nonneg eqb kmax valid) as H0.
      rewrite <- (get_count_Counter eqb) in H0 by done.
      by rewrite (get_count_key eqb eqb_refl _ _ _ Hdistinct Hmax_in) in H0.
  - intros v Hv Hmost.
    pose proof (occurrences_member eqb eqb_refl v valid Hv) as H1.
    rewrite <- (get_count_Counter eqb) in H1 by done.
    unfold get_count in H1. destruct (find _ _) as [[k n]|] eqn:Hf; [|lia].
    apply find_some in Hf as [Hf Hkv]. simpl in Hkv, H1.
    apply list_elem_of_In in Hf.
    exists k. split; [|done]. apply Hmember.
    assert (Hn : n = max_of (map snd (Counter eqb valid))); [|by rewrite <- Hn].
    assert (Hle : (n <= max_of (map snd (Counter eqb valid)))%Z).
    { apply Hmax_le, list_elem_of_fmap. by exists (k, n). }
    assert (Hge : (nmax <= n)%Z).
    { rewrite <- (get_count_key eqb eqb_refl _ _ _ Hdistinct Hmax_in).
      rewrite <- (get_count_key eqb eqb_refl _ _ _ Hdistinct Hf).
      rewrite !(get_count_Counter eqb) by done.
      rewrite (occurrences_congr eqb eqb_sym eqb_trans k v) by done.
      apply Hmost. by apply (Counter_keys eqb) in Hmax_in. }
    lia.
Qed.

End ModeTheorem.

(** The mode of the integers [1, 1, 2, 2, 3], with [==] and [<] of [int]. *)
Lemma mode_sorted_most_frequent_witness :
  _calculate_mode Z.eqb Z.ltb [Some 1; Some 1; Some 2; Some 2; Some 3]%Z = [1; 2]%Z /\
  StronglySorted (fun x y => Z.ltb y x = false)
    (_calculate_mode Z.eqb Z.ltb [Some 1; Some 1; Some 2; Some 2; Some 3]%Z).
Proof.
  split; [reflexivity|].
  apply (mode_sorted_most_frequent Z.eqb Z.ltb).
  - intros x. apply Z.eqb_refl.
  - intros x y H. apply Z.eqb_eq in H. apply Z.eqb_eq. lia.
  - intros x y z H1 H2. apply Z.eqb_eq in H1, H2. apply Z.eqb_eq. lia.
  - intros x y H. apply Z.ltb_lt in H. apply Z.ltb_ge. lia.
  - intros x y z H1 H2. apply Z.ltb_ge in H1, H2. apply Z.ltb_ge. lia.
Defined.

(** ** Export file names *)

Section FileNames.

Lemma append_nil (t : string) : "" +:+ t = t.
Proof. reflexivity. Qed.

Lemma append_cons (c : ascii) (s t : string) : String c s +:+ t = String c (s +:+ t).
Proof. reflexivity. Qed.

Lemma lower_app (s t : string) : lower (s +:+ t) = lower s +:+ lower t.
Proof.
  induction s as [|c s IH]; [done|].
  rewrite append_cons. cbn [lower]. by rewrite IH, append_cons.
Qed.

Lemma length_append (s t : string) :
  String.length (s +:+ t) = (String.length s + String.length t)%nat.
Proof.
  induction s as [|c s IH]; [done|].
  rewrite append_cons. cbn [String.length]. by rewrite IH.
Qed.

Lemma substring_all (t : string) : substring 0 (String.length t) t = t.
Proof. induction t as [|d t IHt]; cbn; [done | by rewrite IHt]. Qed.

Lemma substring_suffix (s t : string) :
  substring (String.length s) (String.length t) (s +:+ t) = t.
Proof.
  induction s as [|c s IH].
  - rewrite append_nil. apply substring_all.
  - rewrite append_cons. cbn [String.length substring]. done.
Qed.

Lemma endswith_app (s t : string) : endswith (s +:+ t) t = true.
Proof.
  unfold endswith. cbv zeta. rewrite length_append.
  replace (String.length s + String.length t - String.length t)%nat
    with (String.length s) by lia.
  rewrite substring_suffix, String.eqb_refl.
  rewrite andb_true_r. apply Nat.leb_le. lia.
Qed.

(** A file name that already ends in [.csv] is kept by the export. *)
Lemma save_results_csv_named (data_to_save : pyobj) (name : string) :
  save_results_csv data_to_save (name +:+ ".csv")
  = Run [Export data_to_save (name +:+ ".csv")] (Returns tt).
Proof.
  unfold save_results_csv. rewrite lower_app.
  change (lower ".csv") with ".csv". by rewrite endswith_app.
Qed.

End FileNames.

(** ** Descriptive statistics of a named feature *)

(** C1, as stated, fails: for a feature name that is not in the header the
    error result is returned without any export. *)
Lemma unknown_feature_export_counterexample :
  ~ (exists r file,
        result (query_descriptive_statistics [] "Nonexistent" ["Age"]) = Returns r /\
        Export r file ∈ exported (query_descriptive_statistics [] "Nonexistent" ["Age"])).
Proof.
  intros (r & file & _ & Hin). vm_compute in Hin. by apply elem_of_nil in Hin.
Qed.

(** C1 (amended): for every dataset, feature name and header,
    [query_descriptive_statistics] returns an error-message string and never
    raises when the feature name is absent from the header, and exports
    nothing in that case; the other error result, for a feature of the header
    without any numeric value, is exported before being returned. *)
Theorem descriptive_statistics_errors (data : list record) (feature_name : string)
    (header : list string) :
  (feature_name ∉ header ->
   query_descriptive_statistics data feature_name header
   = Run [] (Returns (OStr ("Error: Feature '" +:+ feature_name +:+ "' not found.")))) /\
  (feature_name ∈ header -> _get_numeric_values data feature_name None = [] ->
   let error := OStr ("Error: No valid numeric data for '" +:+ feature_name +:+ "'.") in
   query_descriptive_statistics data feature_name header
   = Run [Export error ("descriptive_stats_" +:+ feature_name +:+ ".csv")] (Returns error)).
Proof.
  unfold query_descriptive_statistics. split.
  - intros H. by rewrite bool_decide_eq_false_2.
  - intros H Hn. rewrite bool_decide_eq_true_2 by done. rewrite Hn. cbn [negb].
    change ("descriptive_stats_" +:+ feature_name +:+ ".csv")
      with (("descriptive_stats_" +:+ feature_name) +:+ ".csv").
    rewrite save_results_csv_named. reflexivity.
Qed.

(** The unknown feature [Nonexistent] against the header [Age, Gender], and
    the feature [Gender] that holds no number. *)
Lemma descriptive_statistics_errors_witness :
  query_descriptive_statistics [] "Nonexistent" ["Age"; "Gender"]
  = Run [] (Returns (OStr "Error: Feature 'Nonexistent' not found.")) /\
  exported (query_descriptive_statistics [dict [("Gender", VStr "Male")]] "Gender"
              ["Age"; "Gender"])
  = [Export (OStr "Error: No valid numeric data for 'Gender'.") "descriptive_stats_Gender.csv"].
Proof.
  split.
  - apply (descriptive_statistics_errors [] "Nonexistent" ["Age"; "Gender"]).
    intros H. vm_compute in H. by repeat (apply elem_of_cons in H as [H|H]; [done|]);
      apply elem_of_nil in H.
  - destruct (descriptive_statistics_errors [dict [("Gender", VStr "Male")]] "Gender"
                ["Age"; "Gender"]) as [_ H].
    rewrite H; [done | by right; left | done].
Defined.

(** ** The analyses over an empty driving sequence *)

Section EmptySequences.

(** A loop whose body keeps an invariant and never raises returns a state
    that satisfies the invariant. *)
Lemma for_each_invariant {A S} (body : S -> A -> outcome S) (l : list A) (I : S -> Prop) :
  (forall s x, x ∈ l -> I s -> exists s', body s x = Returns s' /\ I s') ->
  forall s, I s -> exists s', for_each body l s = Returns s' /\ I s'.
Proof.
  induction l as [|x l IH]; intros Hbody s Hs; simpl.
  - by exists s.
  - destruct (Hbody s x) as (s' & -> & Hs'); [left | done|].
    outcome_simpl. apply IH; [|done].
    intros s0 y Hy. apply Hbody. by right.
Qed.

(** The entry of a group: the placeholder for an empty sequence, else a
    bundle without a message field. *)
Lemma age_group_entry_spec (ages : list Q) :
  exists v, age_group_entry ages = Returns v /\
            (ages = [] -> v = no_data_entry "No data") /\
            (ages <> [] -> ~ has_message v).
Proof.
  destruct ages as [|x r] eqn:E.
  - eexists. split; [reflexivity|]. split; done.
  - rewrite <- E. assert (Hne : ages <> []) by (rewrite E; done).
    unfold age_group_entry. rewrite E, <- E.
    rewrite mean_returns, median_value by done. outcome_simpl.
    eexists. split; [reflexivity|]. split; [done|].
    intros _ [v Hv]. vm_compute in Hv. discriminate.
Qed.

(** The entries of an analysis grouped by a discovered category and by the
    outcome: every entry was written by a group and is its entry. *)
Lemma grouped_entries {G} (groups : list G) (ages : G -> Z -> list Q)
    (key : G -> string -> string) :
  exists d : gmap string pyobj,
    for_each (fun (results : gmap string pyobj) g =>
      for_each (fun (results : gmap string pyobj) (sl : Z * string) =>
        let '(stroke_status, label) := sl in
        entry ← age_group_entry (ages g stroke_status);
        Returns (<[key g label := entry]> results))
        outcome_labels results)
      groups ∅ = Returns d /\
    forall k v, d !! k = Some v ->
      exists g stroke_status label,
        g ∈ groups /\ (stroke_status, label) ∈ outcome_labels /\ k = key g label /\
        (ages g stroke_status = [] -> v = no_data_entry "No data") /\
        (ages g stroke_status <> [] -> ~ has_message v).
Proof.
  apply (for_each_invariant _ groups
    (fun d : gmap string pyobj => forall k v, d !! k = Some v ->
      exists g stroke_status label,
        g ∈ groups /\ (stroke_status, label) ∈ outcome_labels /\ k = key g label /\
        (ages g stroke_status = [] -> v = no_data_entry "No data") /\
        (ages g stroke_status <> [] -> ~ has_message v))).
  - intros d g Hg Hd.
    apply (for_each_invariant _ outcome_labels); [|done].
    intros d' [stroke_status label] Hsl Hd'.
    destruct (age_group_entry_spec (ages g stroke_status)) as (v & -> & Hv1 & Hv2).
    outcome_simpl. eexists. split; [reflexivity|].
    intros k v' Hk. destruct (decide (k = key g label)) as [->|Hne].
    + rewrite lookup_insert_eq in Hk. injection Hk as <-.
      by exists g, stroke_status, label.
    + rewrite lookup_insert_ne in Hk by done. by apply Hd'.
  - intros k v Hk. by rewrite lookup_empty in Hk.
Qed.

Lemma sleep_bundle_returns (sleep : list Q) :
  exists b, sleep_bundle sleep = Returns (ODict b) /\ b !! "message" = None.
Proof.
  unfold sleep_bundle. destruct sleep as [|x r] eqn:E.
  - eexists. split; [reflexivity | done].
  - rewrite <- E. assert (Hne : sleep <> []) by (rewrite E; done).
    rewrite mean_returns, median_value by done. outcome_simpl.
    destruct (std_dev_returns sleep None) as [sd ->]. outcome_simpl.
    destruct (py_min_spec sleep Hne) as (lo & -> & _).
    destruct (py_max_spec sleep Hne) as (hi & -> & _).
    destruct (percentile_returns sleep 25) as [p25 ->].
    destruct (percentile_returns sleep 75) as [p75 ->].
    rewrite E, <- E. outcome_simpl.
    eexists. split; [reflexivity | done].
Qed.

End EmptySequences.

Section Catalog.

Lemma smokers_no_data (data : list record) :
  smokers_ages data = [] ->
  let message :=
    ODict (dict [("message",
                  OStr "No data found for smokers with hypertension who had a stroke")]) in
  query_smokers_hypertension_stroke data
  = Run [Export message "smokers_hypertension_stroke.csv"] (Returns message).
Proof.
  intros H. unfold query_smokers_hypertension_stroke. cbn [fold_left].
  rewrite app_nil_l. fold (smokers_ages data). rewrite H.
  reflexivity.
Qed.

Lemma heart_no_data (data : list record) :
  heart_ages data = [] ->
  let message :=
    ODict (dict [("message",
                  OStr "No data found for patients with heart disease who had a stroke")]) in
  query_heart_disease_stroke data
  = Run [Export message "heart_disease_stroke_stats.csv"] (Returns message).
Proof.
  intros H. unfold query_heart_disease_stroke. fold (heart_ages data). rewrite H.
  reflexivity.
Qed.

Lemma gender_groups (float_repr : Q -> string) (data : list record) :
  exists d : gmap string pyobj,
    query_hypertension_gender_stroke float_repr data
    = Run [Export (ODict d) "hypertension_gender_stroke.csv"] (Returns (ODict d)) /\
    forall k v, d !! k = Some v ->
      exists gender stroke_status label,
        gender ∈ field_values data "Gender" (fun v => negb (py_eq v (VStr "Other"))) /\
        (stroke_status, label) ∈ outcome_labels /\
        k = py_str float_repr gender +:+ "_Hypertension_" +:+ label /\
        (gender_ages data gender stroke_status = [] -> v = no_data_entry "No data") /\
        (gender_ages data gender stroke_status <> [] -> ~ has_message v).
Proof.
  destruct (grouped_entries
              (field_values data "Gender" (fun v => negb (py_eq v (VStr "Other"))))
              (gender_ages data)
              (fun gender label => py_str float_repr gender +:+ "_Hypertension_" +:+ label))
    as (d & Hd & Hspec).
  exists d. split; [|done].
  unfold query_hypertension_gender_stroke.
  match goal with
  | |- context [lift ?loop] =>
    let H := fresh in assert (H : loop = Returns d) by exact Hd; rewrite H
  end.
  reflexivity.
Qed.

Lemma smoking_groups (float_repr : Q -> string) (data : list record) :
  exists d : gmap string pyobj,
    query_smoking_stroke float_repr data
    = Run [Export (ODict d) "smoking_stroke.csv"] (Returns (ODict d)) /\
    forall k v, d !! k = Some v ->
      exists status stroke_status label,
        status ∈ field_values data "Smoking Status" (fun _ => true) /\
        (stroke_status, label) ∈ outcome_labels /\
        k = py_str float_repr status +:+ "_" +:+ label /\
        (smoking_ages data status stroke_status = [] -> v = no_data_entry "No data") /\
        (smoking_ages data status stroke_status <> [] -> ~ has_message v).
Proof.
  destruct (grouped_entries
              (field_values data "Smoking Status" (fun _ => true))
              (smoking_ages data)
              (fun status label => py_str float_repr status +:+ "_" +:+ label))
    as (d & Hd & Hspec).
  exists d. split; [|done].
  unfold query_smoking_stroke.
  match goal with
  | |- context [lift ?loop] =>
    let H := fresh in assert (H : loop = Returns d) by exact Hd; rewrite H
  end.
  reflexivity.
Qed.

End Catalog.

Section CatalogFixedGroups.

Lemma residence_entry (residence : string) (ages : list Q) :
  exists v,
    match ages with
    | [] => Returns (ODict (dict [("count", OInt 0);
                                  ("message", OStr ("No data for " +:+ residence))]))
    | _ =>
      average_age ← _calculate_mean ages;
      median_age ← _calculate_median ages;
      Returns (ODict (dict
        [("description", OStr (residence +:+ " residents with stroke"));
         ("count", OInt (len ages));
         ("average_age", of_stat average_age);
         ("median_age", of_stat median_age);
         ("modal_age", OList (mode_of ages))]))
    end = Returns v /\
    (ages = [] -> v = no_data_entry ("No data for " +:+ residence)).
Proof.
  destruct ages as [|x r] eqn:E.
  - eexists. split; [reflexivity | done].
  - rewrite <- E. assert (Hne : ages <> []) by (rewrite E; done).
    rewrite mean_returns, median_value by done. outcome_simpl.
    eexists. split; [reflexivity | done].
Qed.

Lemma residence_groups (data : list record) :
  exists d : gmap string pyobj,
    query_residence_stroke data
    = Run [Export (ODict d) "residence_stroke.csv"] (Returns (ODict d)) /\
    forall residence, residence ∈ ["Urban"; "Rural"] ->
      residence_ages data residence = [] ->
      d !! residence = Some (no_data_entry ("No data for " +:+ residence)).
Proof.
  unfold query_residence_stroke. cbn [for_each].
  fold (residence_ages data "Urban"). fold (residence_ages data "Rural").
  destruct (residence_entry "Urban" (residence_ages data "Urban")) as (u & -> & Hu).
  outcome_simpl.
  destruct (residence_entry "Rural" (residence_ages data "Rural")) as (r & -> & Hr).
  outcome_simpl.
  eexists. split; [reflexivity|].
  intros residence Hin Hempty.
  apply elem_of_cons in Hin as [->|Hin].
  - rewrite lookup_insert_ne by done. rewrite lookup_insert_eq. f_equal. by apply Hu.
  - apply list_elem_of_singleton in Hin as ->.
    rewrite lookup_insert_eq. f_equal. by apply Hr.
Qed.

Lemma sleep_bundle_empty : sleep_bundle [] = Returns empty_sleep_bundle.
Proof. vm_compute. reflexivity. Qed.

Lemma sleep_hours_bundles (data : list record) :
  exists stroke no_stroke : gmap string pyobj,
    query_average_sleep_hours_stroke data
    = (let result := ODict (dict [("stroke", ODict stroke); ("no_stroke", ODict no_stroke)]) in
       Run [Export result "average_sleep_hours_stroke.csv"] (Returns result)) /\
    stroke !! "message" = None /\ no_stroke !! "message" = None /\
    (sleep_hours data 1 = [] -> ODict stroke = empty_sleep_bundle) /\
    (sleep_hours data 0 = [] -> ODict no_stroke = empty_sleep_bundle).
Proof.
  unfold query_average_sleep_hours_stroke.
  fold (sleep_hours data 1). fold (sleep_hours data 0).
  destruct (sleep_bundle_returns (sleep_hours data 1)) as (s & Hs & Hsm).
  destruct (sleep_bundle_returns (sleep_hours data 0)) as (n & Hn & Hnm).
  exists s, n. rewrite Hs, Hn. split; [reflexivity|].
  split; [done|]. split; [done|]. split.
  - intros H. rewrite H, sleep_bundle_empty in Hs. symmetry. congruence.
  - intros H. rewrite H, sleep_bundle_empty in Hn. symmetry. congruence.
Qed.

End CatalogFixedGroups.




(** ** The loader *)

Section Loader.

Lemma dict_snoc {V} (l : list (string * V)) (k : string) (v : V) :
  dict (l ++ [(k, v)]) = <[k := v]> (dict l).
Proof. unfold dict. by rewrite fold_left_app. Qed.

(** With distinct keys, a dict display holds each of its bindings. *)
Lemma dict_lookup {V} (l : list (string * V)) (i : nat) (k : string) (v : V) :
  NoDup (map fst l) -> l !! i = Some (k, v) -> dict l !! k = Some v.
Proof.
  revert i. induction l as [|[k' v'] l IH] using rev_ind; intros i Hnd Hi; [done|].
  rewrite dict_snoc. rewrite map_app in Hnd. simpl in Hnd.
  apply NoDup_app in Hnd as (Hnd & Hnotin & _).
  destruct (decide (i < length l)%nat) as [Hlt|Hge].
  - rewrite lookup_app_l in Hi by done.
    assert (Hk : k <> k').
    { intros ->. apply (Hnotin k'); [|left].
      apply list_elem_of_fmap. exists (k', v). split; [done|].
      by apply list_elem_of_lookup_2 in Hi. }
    rewrite lookup_insert_ne by done. by apply (IH i).
  - rewrite lookup_app_r in Hi by lia.
    destruct (i - length l)%nat; [|done]. injection Hi as -> ->.
    apply lookup_insert_eq.
Qed.

Lemma for_each_app {A S} (body : S -> A -> outcome S) (l1 l2 : list A) (s : S) :
  for_each body (l1 ++ l2) s = (s' ← for_each body l1 s; for_each body l2 s').
Proof.
  revert s. induction l1 as [|x l1 IH]; intros s; simpl; [done|].
  destruct (body s x); outcome_simpl; [apply IH | done].
Qed.

(** Building the record of a row never raises: the indices stay inside the
    header and the row. *)
Lemma make_record_prefix (header values : list string) (n : nat) :
  (n <= length header)%nat -> (n <= length values)%nat ->
  make_record header values n
  = Returns (dict (zip (take n header) (map _convert_to_appropriate_type (take n values)))).
Proof.
  unfold make_record. induction n as [|n IH]; intros Hh Hv; [done|].
  rewrite seq_S, for_each_app, IH by lia. outcome_simpl. cbn [for_each Nat.add].
  destruct (lookup_lt_is_Some_2 header n ltac:(lia)) as [key Hkey].
  destruct (lookup_lt_is_Some_2 values n ltac:(lia)) as [cell Hcell].
  rewrite (py_index_in_range header _ "") by (unfold len; lia).
  rewrite (py_index_in_range values _ "") by (unfold len; lia).
  outcome_simpl. rewrite Nat2Z.id.
  rewrite (nth_lookup_Some _ _ "" _ Hkey), (nth_lookup_Some _ _ "" _ Hcell).
  rewrite (take_S_r header n key), (take_S_r values n cell) by done.
  rewrite map_app, zip_with_app by (rewrite length_map, !length_take; lia).
  cbn [map zip_with]. by rewrite dict_snoc.
Qed.

Lemma make_record_returns (header values : list string) :
  length values = length header ->
  make_record header values (length header)
  = Returns (dict (zip header (map _convert_to_appropriate_type values))).
Proof.
  intros H. rewrite make_record_prefix by lia.
  rewrite <- H at 2. by rewrite !firstn_all.
Qed.

(** One step of the loop: the record of the line is appended, or the line
    is skipped. *)
Lemma load_line_row (header : list string) (data : list record) (line : string) :
  load_line header data line
  = Returns (data ++ match row_of header line with Some r => [r] | None => [] end).
Proof.
  unfold load_line, row_of. destruct (String.eqb (strip line) ""); [by rewrite app_nil_r|].
  cbv zeta. destruct (Nat.eqb_spec (length (map strip (split comma (strip line))))
                        (length header)) as [He|Hne].
  - by rewrite make_record_returns.
  - by rewrite app_nil_r.
Qed.

Lemma load_lines_rows (header : list string) (lines : list string) (data : list record) :
  for_each (load_line header) lines data = Returns (data ++ omap (row_of header) lines).
Proof.
  revert data. induction lines as [|line lines IH]; intros data; simpl.
  - by rewrite app_nil_r.
  - rewrite load_line_row. outcome_simpl. rewrite IH.
    destruct (row_of header line); by rewrite <- app_assoc.
Qed.

(** A readable file is processed whole. *)
Lemma load_data_text (fs : string -> file) (filepath content : string) :
  fs filepath = Text content None ->
  load_data fs filepath = Returns (parse_text content).
Proof.
  intros H. unfold load_data, parse_text. rewrite H.
  destruct (lines_of (universal_newlines content)) as [|header_line lines]; [done|].
  by rewrite load_lines_rows.
Qed.

End Loader.



(** C9: the loader returns [([], [])] for an empty file; a missing file
    raises a file-not-found error whose message carries the path; any other
    failure of opening or reading is raised again as an exception whose
    message carries the cause; and nothing is committed in part: the loader
    returns exactly when the whole file could be read, and then its result is
    the header and the records of all the lines. *)
Theorem load_data_all_or_nothing (fs : string -> file) (filepath : string) :
  (fs filepath = Text "" None -> load_data fs filepath = Returns ([], [])) /\
  (fs filepath = Missing ->
   load_data fs filepath
   = Raises (FileNotFoundError ("Dataset file not found at: " +:+ filepath))) /\
  (forall e, fs filepath = OpenFails e ->
   load_data fs filepath
   = Raises (Exception ("An error occurred while reading the dataset: " +:+ e))) /\
  (forall content e, fs filepath = Text content (Some e) ->
   load_data fs filepath
   = Raises (Exception ("An error occurred while reading the dataset: " +:+ e))) /\
  (forall content, fs filepath = Text content None ->
   load_data fs filepath = Returns (parse_text content)) /\
  (forall r, load_data fs filepath = Returns r ->
   exists content, fs filepath = Text content None /\ r = parse_text content).
Proof.
  split; [|split; [|split; [|split; [|split]]]].
  - intros H. by rewrite (load_data_text _ _ _ H).
  - intros H. unfold load_data. by rewrite H.
  - intros e H. unfold load_data. by rewrite H.
  - intros content e H. unfold load_data. rewrite H.
    destruct (lines_of (universal_newlines content)) as [|header_line lines]; [done|].
    by rewrite load_lines_rows.
  - apply load_data_text.
  - intros r H. destruct (fs filepath) as [|e|content [e|]] eqn:E.
    + unfold load_data in H. by rewrite E in H.
    + unfold load_data in H. by rewrite E in H.
    + unfold load_data in H. rewrite E in H.
      destruct (lines_of (universal_newlines content)) as [|header_line lines]; [done|].
      by rewrite load_lines_rows in H.
    + exists content. split; [done|].
      rewrite (load_data_text _ _ _ E) in H. by injection H.
Qed.

(** The readable file [data.csv] and the missing file [nowhere.csv]. *)
Lemma load_data_all_or_nothing_witness :
  load_data sample_fs "data.csv" = Returns (parse_text sample_text) /\
  load_data sample_fs "nowhere.csv"
  = Raises (FileNotFoundError "Dataset file not found at: nowhere.csv").
Proof.
  split.
  - apply (load_data_all_or_nothing sample_fs "data.csv"). reflexivity.
  - apply (load_data_all_or_nothing sample_fs "nowhere.csv"). reflexivity.
Defined.

(** * Further properties of the engine *)

(** ** Filtering and numeric extraction *)

Section FilterAlgebra.
Implicit Types (data : list record) (c : conditions).

(** What a record must satisfy to be kept. *)
Lemma filter_data_as_filter data (c : option conditions) :
  _filter_data data c
  = List.filter (fun r => (no_conditions c || record_matches r (default ∅ c))%bool) data.
Proof.
  unfold _filter_data. destruct (no_conditions c) eqn:Hc; simpl.
  - induction data as [|r data IH]; simpl; [done|]. by rewrite <- IH.
  - by rewrite fold_left_append_filter.
Qed.

Lemma list_filter_filter {A} (P Q : A -> bool) (l : list A) :
  List.filter P (List.filter Q l) = List.filter (fun x => (Q x && P x)%bool) l.
Proof.
  induction l as [|x l IH]; simpl; [done|].
  destruct (Q x); simpl; [|done]. destruct (P x); by rewrite IH.
Qed.

Lemma list_filter_sublist {A} (P Q : A -> bool) (l : list A) :
  (forall x, P x = true -> Q x = true) ->
  sublist (List.filter P l) (List.filter Q l).
Proof.
  intros H. induction l as [|x l IH]; simpl; [constructor|].
  destruct (P x) eqn:HP.
  - rewrite (H x HP). by constructor.
  - destruct (Q x); [by constructor | done].
Qed.

Lemma fold_left_append_omap {A B} (f : A -> option B) (l : list A) (acc : list B) :
  fold_left (fun values x => match f x with Some y => values ++ [y] | None => values end) l acc
  = acc ++ omap f l.
Proof.
  revert acc. induction l as [|x l IH]; intros acc; simpl.
  - by rewrite app_nil_r.
  - rewrite IH. destruct (f x); [by rewrite <- app_assoc | done].
Qed.

End FilterAlgebra.

(** X1: the numeric values of a feature are the numbers found at that field
    in the records that pass the filter, in the order of the records; a record
    whose field is absent, missing or a string contributes nothing, so there
    are never more values than records. *)
Theorem numeric_values_of_filtered_records (data : list record) (feature : string)
    (c : option conditions) :
  _get_numeric_values data feature c
  = omap (fun r => as_number (get r feature)) (_filter_data data c) /\
  (length (_get_numeric_values data feature c) <= length (_filter_data data c))%nat /\
  (length (_get_numeric_values data feature c) <= length data)%nat.
Proof.
  assert (H : _get_numeric_values data feature c
              = omap (fun r => as_number (get r feature)) (_filter_data data c)).
  { unfold _get_numeric_values. rewrite fold_left_append_omap. simpl.
    destruct (no_conditions c) eqn:Hc; simpl; [|done].
    by rewrite filter_data_all. }
  split; [done|]. rewrite H.
  assert (Hlen : forall l : list record,
            (length (omap (fun r => as_number (get r feature)) l) <= length l)%nat).
  { induction l as [|r l IH]; [simpl; lia|].
    cbn [omap list_omap length]. destruct (as_number (get r feature)); cbn [length]; lia. }
  split; [apply Hlen|].
  etrans; [apply Hlen|]. rewrite filter_data_as_filter. apply filter_length_le.
Qed.

(** X2: filtering is idempotent, and two filters commute: filtering the
    output of a filter again by the same conditions changes nothing, and the
    order in which two condition sets are applied does not matter. *)
Theorem filter_data_idempotent_commutes (data : list record) (c1 c2 : option conditions) :
  _filter_data (_filter_data data c1) c1 = _filter_data data c1 /\
  _filter_data (_filter_data data c1) c2 = _filter_data (_filter_data data c2) c1.
Proof.
  rewrite !filter_data_as_filter, !list_filter_filter. split.
  - apply List.filter_ext. intros r. by destruct (_ || _)%bool.
  - apply List.filter_ext. intros r. apply andb_comm.
Qed.

(** X3: adding conditions only removes records: when every condition of [c1]
    is also in [c2], the records kept under [c2] are a subsequence of those
    kept under [c1]. *)
Theorem filter_data_more_conditions (data : list record) (c1 c2 : conditions) :
  c1 ⊆ c2 ->
  sublist (_filter_data data (Some c2)) (_filter_data data (Some c1)).
Proof.
  intros Hsub. rewrite !filter_data_as_filter. apply list_filter_sublist.
  intros r. simpl. destruct (decide (c2 = ∅)) as [->|Hne].
  - intros _. assert (c1 = ∅) as ->; [|done].
    apply map_eq. intros k. rewrite lookup_empty.
    destruct (c1 !! k) eqn:E; [|done].
    eapply lookup_weaken in E; [|exact Hsub]. by rewrite lookup_empty in E.
  - rewrite (bool_decide_eq_false_2 (c2 = ∅)) by done. simpl. intros Hm.
    apply orb_true_iff. right. apply record_matches_spec.
    intros k v Hk. rewrite record_matches_spec in Hm. apply Hm.
    by eapply lookup_weaken.
Qed.

(** The conditions [Hypertension = 1] and the stronger [Hypertension = 1,
    Stroke Occurrence = 1] on a record that satisfies only the first. *)
Lemma filter_data_more_conditions_witness :
  sublist
    (_filter_data [dict [("Hypertension", VInt 1); ("Stroke Occurrence", VInt 0)]]
       (Some (dict [("Hypertension", VInt 1); ("Stroke Occurrence", VInt 1)])))
    (_filter_data [dict [("Hypertension", VInt 1); ("Stroke Occurrence", VInt 0)]]
       (Some (dict [("Hypertension", VInt 1)]))).
Proof.
  apply filter_data_more_conditions.
  apply map_subseteq_spec. intros k v Hk.
  unfold dict in *. cbn [fold_left fst snd] in *.
  apply lookup_insert_Some in Hk as [[<- <-]|[_ Hk]]; [reflexivity|].
  by rewrite lookup_empty in Hk.
Defined.

(** ** Bounds of the statistics *)

Section StatisticBounds.
Local Open Scope Q_scope.

Lemma fold_plus_bounds (l : list Q) (a lo hi : Q) :
  Forall (fun y => lo <= y) l -> Forall (fun y => y <= hi) l ->
  a + inject_Z (len l) * lo <= fold_left Qplus l a <= a + inject_Z (len l) * hi.
Proof.
  revert a. induction l as [|x l IH]; intros a Hlo Hhi.
  - unfold len. cbn [length fold_left]. change (inject_Z (Z.of_nat 0)) with 0. lra.
  - apply Forall_cons in Hlo as [Hx1 Hlo]. apply Forall_cons in Hhi as [Hx2 Hhi].
    destruct (IH (a + x) Hlo Hhi) as [Hs1 Hs2]. cbn [fold_left].
    assert (Hlen : inject_Z (len (x :: l)) == inject_Z (len l) + 1).
    { unfold len. simpl length. rewrite Nat2Z.inj_succ. unfold Z.succ.
      by rewrite inject_Z_plus. }
    rewrite Hlen. split; lra.
Qed.

(** The exact mean lies between any lower and any upper bound of the
    numbers. *)
Lemma exact_mean_bounded (numbers : list Q) (lo hi : Q) :
  numbers <> [] ->
  Forall (fun y => lo <= y) numbers -> Forall (fun y => y <= hi) numbers ->
  lo <= py_sum numbers / inject_Z (len numbers) <= hi.
Proof.
  intros Hne Hlo Hhi.
  assert (Hn : 0 < inject_Z (len numbers)).
  { change 0 with (inject_Z 0). rewrite <- Zlt_Qlt. unfold len.
    destruct numbers; [done | simpl; lia]. }
  destruct (fold_plus_bounds numbers 0 lo hi Hlo Hhi) as [H1 H2].
  fold (py_sum numbers) in H1, H2. split.
  - apply Qle_shift_div_l; [done|]. lra.
  - apply Qle_shift_div_r; [done|]. lra.
Qed.

Lemma round2_sqrt_nonneg (v s : Q) : round2_sqrt v = Returns s -> 0 <= s.
Proof.
  unfold round2_sqrt. destruct (Qltb v 0); [done|]. cbv zeta.
  generalize (Z.sqrt_nonneg (Qfloor (v * 10000))).
  generalize (Z.sqrt (Qfloor (v * 10000))). intros r Hr.
  destruct (_ ?= _)%Q; [destruct (Z.even r)|..]; intros [= <-]; unfold Qle; simpl; lia.
Qed.

End StatisticBounds.





(** ** The percentile as a function of its rank *)

Section PercentileShape.
Local Open Scope Q_scope.

Lemma fold_min_member (r : list Q) (x : Q) :
  fold_left (fun m y => if Qltb y m then y else m) r x ∈ x :: r.
Proof.
  revert x. induction r as [|y r IH]; intros x; simpl; [left|].
  destruct (Qltb y x).
  - specialize (IH y). apply elem_of_cons in IH as [->|IH]; [right; left | by do 2 right].
  - specialize (IH x). apply elem_of_cons in IH as [->|IH]; [left | by do 2 right].
Qed.

Lemma fold_max_member (r : list Q) (x : Q) :
  fold_left (fun m y => if Qltb m y then y else m) r x ∈ x :: r.
Proof.
  revert x. induction r as [|y r IH]; intros x; simpl; [left|].
  destruct (Qltb x y).
  - specialize (IH y). apply elem_of_cons in IH as [->|IH]; [right; left | by do 2 right].
  - specialize (IH x). apply elem_of_cons in IH as [->|IH]; [left | by do 2 right].
Qed.

(** The first element of the sorted sequence is the minimum, the last one
    the maximum. *)
Lemma sorted_first_is_min (numbers : list Q) (lo : Q) :
  py_min numbers = Returns lo -> nth 0 (sorted Qltb numbers) 0 == lo.
Proof.
  intros Hmin.
  assert (Hne : numbers <> []) by (intros ->; done).
  destruct (py_min_spec numbers Hne) as (lo' & Hmin' & Hlo).
  rewrite Hmin in Hmin'. injection Hmin' as <-.
  assert (Hin : lo ∈ numbers).
  { destruct numbers as [|x r]; [done|]. injection Hmin as <-. apply fold_min_member. }
  pose proof (sorted_numbers_sorted numbers) as Hs.
  pose proof (sorted_perm Qltb numbers) as Hp.
  assert (Hmem : forall x, x ∈ sorted Qltb numbers -> x ∈ numbers).
  { intros x Hx. by rewrite <- Hp. }
  rewrite <- Hp in Hin. rewrite Forall_forall in Hlo.
  destruct (sorted Qltb numbers) as [|x L] eqn:E; [by apply elem_of_nil in Hin|].
  simpl. apply Qle_antisym.
  - apply elem_of_cons in Hin as [->|Hin]; [lra|].
    apply StronglySorted_inv in Hs as [_ Hall]. rewrite Forall_forall in Hall. by apply Hall.
  - apply Hlo, Hmem. left.
Qed.

Lemma sorted_last_is_max (numbers : list Q) (hi : Q) :
  py_max numbers = Returns hi ->
  nth (length numbers - 1) (sorted Qltb numbers) 0 == hi.
Proof.
  intros Hmax.
  assert (Hne : numbers <> []) by (intros ->; done).
  destruct (py_max_spec numbers Hne) as (hi' & Hmax' & Hhi).
  rewrite Hmax in Hmax'. injection Hmax' as <-.
  assert (Hin : hi ∈ numbers).
  { destruct numbers as [|x r]; [done|]. injection Hmax as <-. apply fold_max_member. }
  pose proof (sorted_numbers_sorted numbers) as Hs.
  pose proof (sorted_perm Qltb numbers) as Hp.
  pose proof (sorted_length Qltb numbers) as Hlen.
  assert (Hn : (1 <= length numbers)%nat) by (destruct numbers; [done | simpl; lia]).
  assert (Hmem : forall x, x ∈ sorted Qltb numbers -> x ∈ numbers).
  { intros x Hx. by rewrite <- Hp. }
  rewrite <- Hp in Hin. rewrite Forall_forall in Hhi.
  apply Qle_antisym.
  - apply Hhi, Hmem, list_elem_of_In, nth_In. lia.
  - apply list_elem_of_In, (In_nth _ _ 0) in Hin as (i & Hi & <-).
    apply sorted_nth_le; [done | lia | lia].
Qed.

Lemma rank_zero (n : nat) : rank n 0 == 0.
Proof. unfold rank. field. Qed.

Lemma rank_hundred (n : nat) : rank n 100 == inject_Z (Z.of_nat n - 1).
Proof. unfold rank. field. Qed.

Lemma interpolate_at_index (L : list Q) (k : Q) (i : Z) :
  k == inject_Z i -> interpolate L k = nth (Z.to_nat i) L 0.
Proof.
  intros H. unfold interpolate.
  rewrite (Qfloor_comp _ _ H), (Qceiling_comp _ _ H), Qfloor_Z, Qceiling_Z.
  by rewrite Z.eqb_refl.
Qed.

End PercentileShape.



(** ** The statistics do not depend on the order of the numbers *)

Section OrderIndependence.
Local Open Scope Q_scope.

Lemma Qeqb_refl (x : Q) : Qeqb x x = true.
Proof. by apply Qeqb_eq. Qed.

Lemma Qeqb_sym (x y : Q) : Qeqb x y = true -> Qeqb y x = true.
Proof. rewrite !Qeqb_eq. intros H. by symmetry. Qed.

Lemma Qeqb_trans (x y z : Q) : Qeqb x y = true -> Qeqb y z = true -> Qeqb x z = true.
Proof. rewrite !Qeqb_eq. intros H1 H2. by rewrite H1. Qed.

Lemma occurrences_cons (v x : Q) (l : list Q) :
  occurrences Qeqb v (x :: l) = ((if Qeqb x v then 1 else 0) + occurrences Qeqb v l)%Z.
Proof. unfold occurrences. simpl. destruct (Qeqb x v); simpl; lia. Qed.

(** Two sorted sequences in which every number occurs equally often hold
    equal numbers at every position. *)
Lemma sorted_same_occurrences (L1 L2 : list Q) :
  StronglySorted Qle L1 -> StronglySorted Qle L2 ->
  (forall v, occurrences Qeqb v L1 = occurrences Qeqb v L2) ->
  Forall2 Qeq L1 L2.
Proof.
  intros H1. revert L2. induction H1 as [|a L1 Hs1 IH Hall1]; intros L2 H2 Hocc.
  - destruct L2 as [|b L2]; [constructor|].
    specialize (Hocc b). rewrite occurrences_cons, Qeqb_refl in Hocc.
    pose proof (occurrences_nonneg Qeqb b L2). unfold occurrences in Hocc at 1.
    simpl in Hocc. lia.
  - destruct L2 as [|b L2].
    { specialize (Hocc a). rewrite occurrences_cons, Qeqb_refl in Hocc.
      pose proof (occurrences_nonneg Qeqb a L1). unfold occurrences in Hocc at 2.
      simpl in Hocc. lia. }
    apply StronglySorted_inv in H2 as [Hs2 Hall2].
    rewrite Forall_forall in Hall1, Hall2.
    assert (Hab : a == b).
    { apply Qle_antisym.
      - assert (Hb : (1 <= occurrences Qeqb b (a :: L1))%Z).
        { rewrite Hocc. apply occurrences_member; [apply Qeqb_refl | left]. }
        apply occurrences_positive in Hb as (u & Hu & Hub). apply Qeqb_eq in Hub.
        apply elem_of_cons in Hu as [->|Hu]; [lra|]. specialize (Hall1 u Hu). lra.
      - assert (Ha : (1 <= occurrences Qeqb a (b :: L2))%Z).
        { rewrite <- Hocc. apply occurrences_member; [apply Qeqb_refl | left]. }
        apply occurrences_positive in Ha as (u & Hu & Hua). apply Qeqb_eq in Hua.
        apply elem_of_cons in Hu as [->|Hu]; [lra|]. specialize (Hall2 u Hu). lra. }
    constructor; [done|]. apply IH; [done|].
    intros v. specialize (Hocc v). rewrite !occurrences_cons in Hocc.
    assert (Hv : Qeqb a v = Qeqb b v).
    { apply (eqb_congr Qeqb Qeqb_sym Qeqb_trans). by apply Qeqb_eq. }
    rewrite Hv in Hocc. lia.
Qed.

Lemma sorted_permuted (S S' : list Q) :
  Permutation S S' -> Forall2 Qeq (sorted Qltb S) (sorted Qltb S').
Proof.
  intros Hp. apply sorted_same_occurrences; try apply sorted_numbers_sorted.
  intros v. apply occurrences_perm.
  by rewrite !(sorted_perm Qltb).
Qed.

Lemma Forall2_Qeq_nth (L1 L2 : list Q) (i : nat) :
  Forall2 Qeq L1 L2 -> nth i L1 0 == nth i L2 0.
Proof.
  intros H. revert i. induction H as [|a b L1 L2 Hab _ IH]; intros [|i]; simpl;
    try reflexivity; [done | apply IH].
Qed.

Lemma interpolate_comp (L1 L2 : list Q) (k : Q) :
  Forall2 Qeq L1 L2 -> interpolate L1 k == interpolate L2 k.
Proof.
  intros H. unfold interpolate. destruct (_ =? _)%Z.
  - by apply Forall2_Qeq_nth.
  - by rewrite (Forall2_Qeq_nth L1 L2 (Z.to_nat (Qfloor k)) H),
               (Forall2_Qeq_nth L1 L2 (Z.to_nat (Qceiling k)) H).
Qed.

Lemma fold_plus_comp (l : list Q) (a b : Q) :
  a == b -> fold_left Qplus l a == fold_left Qplus l b.
Proof.
  revert a b. induction l as [|x l IH]; intros a b H; simpl; [done|].
  apply IH. by rewrite H.
Qed.

Lemma py_sum_permuted (S S' : list Q) : Permutation S S' -> py_sum S == py_sum S'.
Proof.
  unfold py_sum. generalize 0. intros a Hp. revert a.
  induction Hp as [|x l l' _ IH|x y l|l l' l'' _ IH1 _ IH2]; intros a; simpl.
  - reflexivity.
  - apply IH.
  - apply fold_plus_comp. ring.
  - by rewrite IH1.
Qed.

End OrderIndependence.



(** ** The mode of a sequence of numbers *)

Section ModeOfNumbers.

Lemma omap_id_Some {A} (l : list A) : omap id (map Some l) = l.
Proof. induction l as [|x l IH]; [done|]. cbn. by rewrite IH. Qed.

Lemma Counter_nonempty (numbers : list Q) :
  numbers <> [] -> map snd (Counter Qeqb numbers) <> [].
Proof.
  destruct numbers as [|x r] eqn:E; [done|]. rewrite <- E. intros _.
  assert (H1 : (1 <= get_count Qeqb (Counter Qeqb numbers) x)%Z).
  { rewrite (get_count_Counter Qeqb Qeqb_sym Qeqb_trans).
    apply occurrences_member; [apply Qeqb_refl|]. rewrite E. left. }
  unfold get_count in H1. destruct (Counter Qeqb numbers); [simpl in H1; lia | done].
Qed.

End ModeOfNumbers.

(** X8: a sequence of numbers has a mode exactly when it is not empty, and
    every mode is one of its numbers. *)
Theorem mode_of_numbers_nonempty (numbers : list Q) :
  (mode_of numbers = [] <-> numbers = []) /\
  (forall v, v ∈ mode_of numbers -> v ∈ numbers).
Proof.
  unfold mode_of. split.
  - split; [|by intros ->].
    intros Hmode. destruct (decide (numbers = [])) as [|Hne]; [done|]. exfalso.
    pose proof (Counter_nonempty numbers Hne) as Hc.
    destruct (max_of_spec _ Hc) as [Hin _].
    apply list_elem_of_fmap in Hin as ([k n] & Hn & Hin). simpl in Hn.
    assert (Hk : k ∈ _calculate_mode Qeqb Qltb (map Some numbers)).
    { apply mode_member; rewrite omap_id_Some; [done|]. by rewrite Hn. }
    rewrite Hmode in Hk. by apply elem_of_nil in Hk.
  - intros v Hv. destruct (decide (numbers = [])) as [->|Hne].
    { by apply elem_of_nil in Hv. }
    apply mode_member in Hv; rewrite omap_id_Some in *; [|done].
    by apply Counter_keys in Hv.
Qed.

(** ** The analyses over a non-empty driving sequence *)

Section Bundles.

Lemma mean_always_returns (numbers : list Q) : exists v, _calculate_mean numbers = Returns v.
Proof.
  destruct numbers as [|x r] eqn:E; [by eexists|]. rewrite <- E.
  rewrite mean_returns by (rewrite E; done). by eexists.
Qed.

End Bundles.



(** ** The descriptive statistics of a feature *)

Section DescriptiveBundle.

Lemma match_nonempty {A B} (l : list A) (a b : B) :
  l <> [] -> match l with [] => a | _ :: _ => b end = b.
Proof. by destruct l. Qed.

Lemma std_dev_some (numbers : list Q) (mean_val : option Q) :
  (2 <= length numbers)%nat ->
  exists s, _calculate_std_dev numbers mean_val = Returns (Some s) /\ (0 <= s)%Q.
Proof.
  intros Hlen. destruct (std_dev_returns numbers mean_val) as [r Hr].
  unfold _calculate_std_dev in *.
  assert (Hg : (bool_decide (numbers = []) || (len numbers <? 2)%Z)%bool = false).
  { apply orb_false_iff. split.
    - apply bool_decide_eq_false_2. intros ->. simpl in Hlen. lia.
    - apply Z.ltb_ge. unfold len. lia. }
  rewrite Hg in *.
  destruct (match mean_val with
            | Some m => Returns (Some m)
            | None => _calculate_mean numbers
            end) as [[m|]|e]; [|discriminate..].
  cbn [mbind outcome_bind] in *.
  destruct (py_div _ _) as [variance|e]; [|discriminate].
  cbn [mbind outcome_bind] in *.
  destruct (round2_sqrt variance) as [s|e] eqn:Hs; [|discriminate].
  cbn [mbind outcome_bind] in *.
  exists s. split; [reflexivity|]. by apply (round2_sqrt_nonneg variance).
Qed.

End DescriptiveBundle.



(** ** The patient listings *)

Section Listings.

Lemma dict_two_lookup {V} (k1 k2 : string) (v1 v2 : V) (k : string) (v : V) :
  k1 <> k2 ->
  dict [(k1, v1); (k2, v2)] !! k = Some v <-> (k = k1 /\ v = v1) \/ (k = k2 /\ v = v2).
Proof.
  intros Hne. unfold dict. cbn [fold_left fst snd].
  rewrite lookup_insert_Some, lookup_insert_Some, lookup_empty. split.
  - intros [[<- <-]|[Hk [[<- <-]|[_ H]]]]; [by right | by left | discriminate].
  - intros [[-> ->]|[-> ->]]; [right; split; [done|]; by left | by left].
Qed.

(** A record passes two conditions on different fields iff it passes each. *)
Lemma matches_two (r : record) (k1 k2 : string) (v1 v2 : value) :
  k1 <> k2 ->
  record_matches r (dict [(k1, v1); (k2, v2)]) = true <->
  py_eq (get r k1) v1 = true /\ py_eq (get r k2) v2 = true.
Proof.
  intros Hne. rewrite record_matches_spec. split.
  - intros H. split; apply H; apply dict_two_lookup; auto.
  - intros [H1 H2] k v Hk. apply dict_two_lookup in Hk as [[-> ->]|[-> ->]]; done.
Qed.

Lemma dict_two_nonempty {V} (k1 k2 : string) (v1 v2 : V) :
  dict [(k1, v1); (k2, v2)] <> ∅.
Proof. unfold dict. cbn [fold_left fst snd]. apply insert_non_empty. Qed.

(** The records kept by two conditions on different fields. *)
Lemma filter_two (data : list record) (k1 k2 : string) (v1 v2 : value) (r : record) :
  k1 <> k2 ->
  r ∈ _filter_data data (Some (dict [(k1, v1); (k2, v2)])) <->
  r ∈ data /\ py_eq (get r k1) v1 = true /\ py_eq (get r k2) v2 = true.
Proof.
  intros Hne. rewrite filter_data_conditions by apply dict_two_nonempty.
  rewrite list_elem_of_In, filter_In, <- list_elem_of_In, matches_two by exact Hne.
  reflexivity.
Qed.

Lemma filter_sublist (data : list record) (c : option conditions) :
  sublist (_filter_data data c) data.
Proof.
  rewrite filter_data_as_filter.
  induction data as [|r data IH]; simpl; [constructor|].
  destruct (_ || _)%bool; by constructor.
Qed.

(** No value equals both 1 and 0. *)
Lemma not_one_and_zero (v : value) :
  py_eq v (VInt 1) = true -> py_eq v (VInt 0) = true -> False.
Proof.
  destruct v as [|z|q|s]; simpl; try discriminate.
  - intros H1 H0. apply Z.eqb_eq in H1, H0. lia.
  - intros H1 H0. apply Qeqb_eq in H1, H0. rewrite H1 in H0. discriminate.
Qed.

End Listings.

(** X11: the two patient listings (hypertension and stroke; heart disease and
    stroke) return and export the same list: the records of the dataset, in
    their order, whose two fields both equal 1, and no other record. *)
Theorem patient_listings (data : list record) :
  (exists patients,
     query_hypertension_stroke_patients data
     = Run [Export (ORecords patients) "hypertension_stroke_patients.csv"]
           (Returns (ORecords patients)) /\
     sublist patients data /\
     forall r, r ∈ patients <->
       r ∈ data /\ py_eq (get r "Hypertension") (VInt 1) = true /\
       py_eq (get r "Stroke Occurrence") (VInt 1) = true) /\
  (exists patients,
     query_heart_disease_stroke_patients data
     = Run [Export (ORecords patients) "heart_disease_stroke_patients.csv"]
           (Returns (ORecords patients)) /\
     sublist patients data /\
     forall r, r ∈ patients <->
       r ∈ data /\ py_eq (get r "Heart Disease") (VInt 1) = true /\
       py_eq (get r "Stroke Occurrence") (VInt 1) = true).
Proof.
  split.
  - exists (_filter_data data (Some hypertension_stroke)).
    split; [reflexivity|]. split; [apply filter_sublist|].
    intros r. by apply filter_two.
  - exists (_filter_data data (Some heart_disease_stroke)).
    split; [reflexivity|]. split; [apply filter_sublist|].
    intros r. by apply filter_two.
Qed.

(** X12: the comparison of the hypertension patients returns two lists
    without a common record, the first one being the listing of the
    hypertension patients with a stroke; it exports one table with a row for
    every record of the two lists, each row being its record with the added
    [Group] label, and leaves the returned records unlabelled. *)
Theorem hypertension_comparison (data : list record) :
  let stroke := _filter_data data (Some hypertension_stroke) in
  let no_stroke := _filter_data data (Some hypertension_no_stroke) in
  let combined :=
    map (fun p : record => <["Group" := VStr "Stroke"]> p) stroke
    ++ map (fun p : record => <["Group" := VStr "No Stroke"]> p) no_stroke in
  query_hypertension_stroke_comparison data
  = Run [Export (ORecords combined) "hypertension_stroke_comparison.csv"]
        (Returns (ODict (dict
           [("hypertension_led_to_stroke", ORecords stroke);
            ("hypertension_did_not_lead_to_stroke", ORecords no_stroke)]))) /\
  (forall r, r ∈ stroke -> r ∉ no_stroke) /\
  length combined = (length stroke + length no_stroke)%nat /\
  (forall row, row ∈ combined ->
     exists r, r ∈ data /\
       ((row = <["Group" := VStr "Stroke"]> r /\ r ∈ stroke) \/
        (row = <["Group" := VStr "No Stroke"]> r /\ r ∈ no_stroke))) /\
  result (query_hypertension_stroke_patients data) = Returns (ORecords stroke).
Proof.
  intros stroke no_stroke combined.
  split; [reflexivity|]. split; [|split; [|split; [|reflexivity]]].
  - intros r H1 H0. apply filter_two in H1 as (_ & _ & H1); [|done].
    apply filter_two in H0 as (_ & _ & H0); [|done].
    exact (not_one_and_zero _ H1 H0).
  - unfold combined. by rewrite length_app, !length_map.
  - intros row Hrow. unfold combined in Hrow.
    apply elem_of_app in Hrow as [Hrow|Hrow];
      apply list_elem_of_fmap in Hrow as (r & -> & Hr); exists r.
    + split; [|by left]. apply filter_two in Hr; [tauto | done].
    + split; [|by right]. apply filter_two in Hr; [tauto | done].
Qed.

(** ** The distribution of the dietary habits *)

Section ValueEquality.

Lemma inject_Z_inj (x y : Z) : (inject_Z x == inject_Z y)%Q -> x = y.
Proof. unfold Qeq. simpl. lia. Qed.

Lemma py_eq_refl (v : value) : py_eq v v = true.
Proof.
  destruct v as [|z|q|s]; simpl; [done | apply Z.eqb_refl | apply Qeqb_refl
                                  | apply String.eqb_refl].
Qed.

Lemma py_eq_sym (u v : value) : py_eq u v = true -> py_eq v u = true.
Proof.
  destruct u as [|x|p|s], v as [|y|q|t]; simpl; try done.
  - rewrite !Z.eqb_eq. by intros ->.
  - apply Qeqb_sym.
  - apply Qeqb_sym.
  - apply Qeqb_sym.
  - rewrite !String.eqb_eq. by intros ->.
Qed.

Lemma py_eq_trans (u v w : value) :
  py_eq u v = true -> py_eq v w = true -> py_eq u w = true.
Proof.
  destruct u as [|x|p|s], v as [|y|q|t], w as [|z|r|t']; simpl; try done;
    rewrite ?Z.eqb_eq, ?Qeqb_eq, ?String.eqb_eq; intros H1 H2; subst; try done;
    try match goal with |- @eq Z _ _ => apply inject_Z_inj end;
    solve [ exact H1 | exact H2 | by rewrite H1 | by rewrite <- H2 ].
Qed.

End ValueEquality.

Section CounterTotals.
Context {A : Type} (eqb : A -> A -> bool).

Lemma total_count_add (counts : list (A * Z)) (x : A) :
  total_count (counter_add eqb counts x) = (total_count counts + 1)%Z.
Proof.
  unfold total_count. induction counts as [|[k n] rest IH]; simpl; [done|].
  destruct (eqb k x); simpl; lia.
Qed.

Lemma total_count_Counter_from (counts : list (A * Z)) (items : list A) :
  total_count (fold_left (counter_add eqb) items counts)
  = (total_count counts + len items)%Z.
Proof.
  revert counts. induction items as [|x items IH]; intros counts.
  - unfold len. simpl. lia.
  - cbn [fold_left]. rewrite IH, total_count_add. unfold len. simpl length. lia.
Qed.

Lemma counts_positive_add (counts : list (A * Z)) (x : A) :
  Forall (fun kn => 1 <= kn.2)%Z counts ->
  Forall (fun kn => 1 <= kn.2)%Z (counter_add eqb counts x).
Proof.
  induction 1 as [|[k n] rest Hn Hrest IH]; simpl.
  - constructor; [simpl; lia | constructor].
  - destruct (eqb k x); constructor; simpl in *; try assumption; lia.
Qed.

Lemma counts_positive_Counter_from (counts : list (A * Z)) (items : list A) :
  Forall (fun kn => 1 <= kn.2)%Z counts ->
  Forall (fun kn => 1 <= kn.2)%Z (fold_left (counter_add eqb) items counts).
Proof.
  revert counts. induction items as [|x items IH]; intros counts H; [done|].
  cbn [fold_left]. by apply IH, counts_positive_add.
Qed.

End CounterTotals.

(** X13: the distribution of the dietary habits counts, separately for the
    records with and without a stroke, how often each habit occurs among the
    truthy habit values of those records: the count held for a habit is its
    number of occurrences, no habit has two entries, every entry counts at
    least one record, and the counts add up to the number of habit values. *)
Theorem dietary_habit_counts (data : list record) :
  let habits (stroke_status : Z) :=
    truthy_values
      (_filter_data data (Some (dict [("Stroke Occurrence", VInt stroke_status)])))
      "Dietary Habits" in
  query_dietary_habits_stroke data
  = (let result := ODict (dict
       [("description", OStr "Dietary habits distribution");
        ("stroke", OCounts (Counter py_eq (habits 1%Z)));
        ("no_stroke", OCounts (Counter py_eq (habits 0%Z)))]) in
     Run [Export result "dietary_habits_stroke.csv"] (Returns result)) /\
  forall stroke_status,
    let counts := Counter py_eq (habits stroke_status) in
    (forall v, get_count py_eq counts v = occurrences py_eq v (habits stroke_status)) /\
    (forall v, key_count py_eq counts v <= 1)%Z /\
    Forall (fun kn => 1 <= kn.2 /\ kn.1 ∈ habits stroke_status)%Z counts /\
    total_count counts = len (habits stroke_status).
Proof.
  intros habits. split; [reflexivity|].
  intros stroke_status counts. split; [|split; [|split]].
  - intros v. apply (get_count_Counter py_eq py_eq_sym py_eq_trans).
  - intros v. apply (key_occurrences_Counter py_eq py_eq_refl py_eq_sym py_eq_trans).
  - pose proof (counts_positive_Counter_from py_eq [] (habits stroke_status)
                  (Forall_nil_2 _)) as Hpos.
    fold (Counter py_eq (habits stroke_status)) in Hpos. fold counts in Hpos.
    rewrite Forall_forall in Hpos. apply Forall_forall. intros [k n] Hkn.
    split; [by apply (Hpos (k, n))|]. simpl.
    by apply (Counter_keys py_eq) in Hkn.
  - unfold counts, Counter. rewrite total_count_Counter_from. unfold total_count. simpl. lia.
Qed.

(** ** Invariants of the loaded dataset *)

Section LoadedRecords.

Lemma dom_fold_insert {V} (l : list (string * V)) (m : gmap string V) :
  dom (fold_left (fun d kv => <[kv.1 := kv.2]> d) l m)
  = dom m ∪ list_to_set (map fst l).
Proof.
  revert m. induction l as [|[k v] l IH]; intros m; simpl.
  - by rewrite union_empty_r_L.
  - rewrite IH, dom_insert_L.
    by rewrite (comm_L (∪) {[k]} (dom m)), <- (assoc_L (∪)).
Qed.

Lemma dom_dict {V} (l : list (string * V)) : dom (dict l) = list_to_set (map fst l).
Proof. unfold dict. by rewrite dom_fold_insert, dom_empty_L, union_empty_l_L. Qed.

(** The record of an accepted line has exactly the fields of the header. *)
Lemma row_of_dom (header : list string) (line : string) (rec : record) :
  row_of header line = Some rec -> dom rec = list_to_set header.
Proof.
  unfold row_of. destruct (String.eqb (strip line) ""); [discriminate|]. cbv zeta.
  destruct (Nat.eqb_spec (length (map strip (split comma (strip line)))) (length header))
    as [Hlen|]; [|discriminate].
  intros [= <-]. rewrite dom_dict, fst_zip; [done|].
  rewrite length_map. lia.
Qed.

Lemma load_data_returns_inv (fs : string -> file) (filepath : string)
    (r : list record * list string) :
  load_data fs filepath = Returns r ->
  exists content, fs filepath = Text content None /\ r = parse_text content.
Proof.
  intros H. destruct (fs filepath) as [|e|content [e|]] eqn:E.
  - unfold load_data in H. rewrite E in H. discriminate.
  - unfold load_data in H. rewrite E in H. discriminate.
  - unfold load_data in H. rewrite E in H.
    destruct (lines_of (universal_newlines content)) as [|header_line lines]; [discriminate|].
    rewrite load_lines_rows in H. discriminate.
  - exists content. split; [done|].
    rewrite (load_data_text _ _ _ E) in H. by injection H.
Qed.

Lemma length_omap_le {A B} (f : A -> option B) (l : list A) :
  (length (omap f l) <= length l)%nat.
Proof.
  induction l as [|x l IH]; [simpl; lia|].
  cbn [omap list_omap length]. destruct (f x); cbn [length]; lia.
Qed.

End LoadedRecords.

(** X14: whatever the file, every record the loader returns has exactly the
    fields of the returned header, and there is at most one record per line
    after the header line. *)
Theorem loaded_records_match_header (fs : string -> file) (filepath : string)
    (data : list record) (header : list string) :
  load_data fs filepath = Returns (data, header) ->
  (forall r, r ∈ data -> dom r = list_to_set header) /\
  (exists content, fs filepath = Text content None /\
     (length data <= length (lines_of (universal_newlines content)) - 1)%nat).
Proof.
  intros H. apply load_data_returns_inv in H as (content & Hfs & Hr).
  unfold parse_text in Hr.
  destruct (lines_of (universal_newlines content)) as [|header_line lines] eqn:El.
  - injection Hr as -> ->. split.
    + intros r Hin. by apply elem_of_nil in Hin.
    + exists content. split; [done|]. rewrite El. simpl. lia.
  - injection Hr as -> ->. split.
    + intros r Hin. apply list_elem_of_omap in Hin as (line & _ & Hrow).
      by apply row_of_dom in Hrow.
    + exists content. split; [done|]. rewrite El. simpl.
      rewrite Nat.sub_0_r. apply length_omap_le.
Qed.

(** The sample file: two records with the fields [Age] and [Gender]. *)
Lemma loaded_records_match_header_witness :
  load_data sample_fs "data.csv" = Returns (parse_text sample_text) /\
  exists content,
    sample_fs "data.csv" = Text content None /\
    (length (parse_text sample_text).1
     <= length (lines_of (universal_newlines content)) - 1)%nat.
Proof.
  split; [reflexivity|].
  apply (loaded_records_match_header sample_fs "data.csv" _ ["Age"; "Gender"]).
  reflexivity.
Defined.

(** ** Integers survive the export and the loader *)

Section IntegerText.

Lemma digit_of_pretty_char (n : N) :
  (n < 10)%N -> digit_of (pretty_N_char n) = Some (Z.of_N n).
Proof.
  intros H. rewrite <- (N2Nat.id n).
  assert (Hm : (N.to_nat n < 10)%nat) by lia.
  clear H. revert Hm. generalize (N.to_nat n). intros m Hm.
  do 10 (destruct m as [|m]; [reflexivity|]). lia.
Qed.

Lemma digit_part_digit (prev : bool) (c : ascii) (s : string) (d : Z) :
  digit_of c = Some d -> digit_part prev (String c s) = cons d <$> digit_part true s.
Proof. intros H. cbn [digit_part]. by rewrite H. Qed.

Lemma digits_value_snoc (ds : list Z) (d : Z) :
  digits_value (ds ++ [d]) = (10 * digits_value ds + d)%Z.
Proof. unfold digits_value. by rewrite fold_left_app. Qed.

Lemma digits_value_app (ds1 ds2 : list Z) :
  digits_value (ds1 ++ ds2)
  = fold_left (fun acc d => (10 * acc + d)%Z) ds2 (digits_value ds1).
Proof. unfold digits_value. by rewrite fold_left_app. Qed.

(** The decimal digits that [str] writes in front of a digit string are read
    back as the number. *)
Lemma digit_part_pretty_go (x : N) (s : string) (ds : list Z) :
  (0 < x)%N -> digit_part true s = Some ds ->
  exists ds', digit_part false (pretty_N_go x s) = Some (ds' ++ ds) /\
              digits_value ds' = Z.of_N x.
Proof.
  revert s ds. induction (N.lt_wf_0 x) as [x _ IH]. intros s ds Hx Hs.
  rewrite pretty_N_go_step by done.
  pose proof (digit_of_pretty_char (x `mod` 10)%N
                ltac:(apply N.mod_lt; discriminate)) as Hd.
  assert (Hs' : digit_part true (String (pretty_N_char (x `mod` 10)) s)
                = Some (Z.of_N (x `mod` 10) :: ds)).
  { rewrite (digit_part_digit _ _ _ _ Hd), Hs. reflexivity. }
  destruct (decide (x `div` 10 = 0)%N) as [Hz|Hnz].
  - rewrite Hz, pretty_N_go_0.
    exists [Z.of_N (x `mod` 10)]. split.
    + rewrite (digit_part_digit _ _ _ _ Hd), Hs. reflexivity.
    + unfold digits_value. simpl. rewrite N.mod_small; [lia|].
      apply N.div_small_iff in Hz; [done | discriminate].
  - destruct (IH (x `div` 10)%N) with (s := String (pretty_N_char (x `mod` 10)) s)
                                      (ds := Z.of_N (x `mod` 10) :: ds)
      as (ds' & Hp & Hv).
    + apply N.div_lt; [done | reflexivity].
    + by apply N.neq_0_lt_0.
    + exact Hs'.
    + exists (ds' ++ [Z.of_N (x `mod` 10)]). split.
      * rewrite Hp. by rewrite <- app_assoc.
      * rewrite digits_value_snoc, Hv.
        rewrite (N.div_mod x 10) at 3 by discriminate. lia.
Qed.

Lemma digit_part_pretty_N (x : N) :
  exists ds, digit_part false (pretty x) = Some ds /\ digits_value ds = Z.of_N x.
Proof.
  unfold pretty, pretty_N. destruct (decide (x = 0)%N) as [->|Hx].
  - exists [0%Z]. split; reflexivity.
  - destruct (digit_part_pretty_go x "" [] ltac:(lia) eq_refl) as (ds & Hp & Hv).
    exists ds. rewrite app_nil_r in Hp. by split.
Qed.

(** A digit string has no sign, no white space, and is none of the special
    cell texts. *)
Lemma digit_part_first (s : string) (ds : list Z) :
  digit_part false s = Some ds ->
  exists c r d, s = String c r /\ digit_of c = Some d.
Proof.
  destruct s as [|c r]; [discriminate|]. cbn [digit_part].
  destruct (digit_of c) as [d|] eqn:Hd.
  - intros _. by exists c, r, d.
  - rewrite andb_false_r. discriminate.
Qed.

Lemma digit_of_not_space (c : ascii) (d : Z) : digit_of c = Some d -> is_space c = false.
Proof.
  unfold digit_of, is_space. intros H.
  destruct (48 <=? nat_of_ascii c)%nat eqn:H1; [|discriminate].
  destruct (nat_of_ascii c <=? 57)%nat eqn:H2; [|discriminate].
  apply Nat.leb_le in H1, H2.
  assert (Ha : (nat_of_ascii c <=? 13)%nat = false) by (apply Nat.leb_gt; lia).
  assert (Hb : (nat_of_ascii c <=? 32)%nat = false) by (apply Nat.leb_gt; lia).
  by rewrite Ha, Hb, !andb_false_r.
Qed.

Lemma underscore_not_space : is_space underscore = false.
Proof. reflexivity. Qed.

(** Every character of a digit string is a digit or an underscore. *)
Lemma digit_part_chars (P : ascii -> Prop) (prev : bool) (s : string) (ds : list Z) :
  (forall c d, digit_of c = Some d -> P c) -> P underscore ->
  digit_part prev s = Some ds -> Forall P (list_ascii_of_string s).
Proof.
  intros Hdigit Hunder. revert prev ds.
  induction s as [|c r IH]; intros prev ds; [constructor|].
  cbn [digit_part list_ascii_of_string].
  destruct (digit_of c) as [d|] eqn:Hd.
  - destruct (digit_part true r) as [ds'|] eqn:Hr; [|discriminate].
    intros _. constructor; [by apply (Hdigit c d) | by apply (IH true ds')].
  - destruct (Ascii.eqb c underscore) eqn:Hu; [|discriminate].
    destruct prev; [|discriminate]. simpl. intros Hr.
    apply Ascii.eqb_eq in Hu as ->.
    constructor; [exact Hunder | by apply (IH false ds)].
Qed.

Lemma lstrip_no_space (s : string) :
  Forall (fun c => is_space c = false) (list_ascii_of_string s) -> lstrip s = s.
Proof.
  destruct s as [|c r]; [done|]. cbn [list_ascii_of_string lstrip].
  intros H. apply Forall_cons in H as [Hc _]. by rewrite Hc.
Qed.

Lemma rstrip_no_space (s : string) :
  Forall (fun c => is_space c = false) (list_ascii_of_string s) -> rstrip s = s.
Proof.
  induction s as [|c r IH]; [done|]. cbn [list_ascii_of_string rstrip].
  intros H. apply Forall_cons in H as [Hc Hr]. rewrite (IH Hr).
  destruct r; [by rewrite Hc | done].
Qed.

Lemma strip_no_space (s : string) :
  Forall (fun c => is_space c = false) (list_ascii_of_string s) -> strip s = s.
Proof.
  intros H. unfold strip. rewrite (lstrip_no_space s H). by apply rstrip_no_space.
Qed.

Lemma split_sign_digits (s : string) (ds : list Z) :
  digit_part false s = Some ds -> split_sign s = (1%Z, s).
Proof.
  intros H. destruct (digit_part_first s ds H) as (c & r & d & -> & Hd).
  unfold split_sign.
  destruct (Ascii.eqb c (ascii_of_nat 45)) eqn:H1.
  { apply Ascii.eqb_eq in H1 as ->. discriminate. }
  destruct (Ascii.eqb c (ascii_of_nat 43)) eqn:H2.
  { apply Ascii.eqb_eq in H2 as ->. discriminate. }
  reflexivity.
Qed.

Lemma parse_int_digits (s : string) (ds : list Z) :
  digit_part false s = Some ds -> parse_int s = Some (digits_value ds).
Proof.
  intros H. unfold parse_int. rewrite (split_sign_digits _ _ H), H.
  change (Some (1 * digits_value ds)%Z = Some (digits_value ds)).
  by rewrite Z.mul_1_l.
Qed.

Lemma parse_int_minus (s : string) (ds : list Z) :
  digit_part false s = Some ds ->
  parse_int (String "-"%char s) = Some (- digits_value ds)%Z.
Proof.
  intros H. unfold parse_int.
  change (split_sign (String "-"%char s)) with ((-1)%Z, s).
  cbv beta iota. rewrite H.
  change (Some (-1 * digits_value ds)%Z = Some (- digits_value ds)%Z).
  f_equal.
Qed.

(** [int(str(z))] is [z]. *)
Lemma parse_int_pretty (z : Z) : parse_int (pretty z) = Some z.
Proof.
  unfold pretty, pretty_Z. destruct z as [|p|p].
  - reflexivity.
  - destruct (digit_part_pretty_N (N.pos p)) as (ds & Hp & Hv).
    change (pretty p) with (pretty (N.pos p)).
    rewrite (parse_int_digits _ _ Hp), Hv. reflexivity.
  - destruct (digit_part_pretty_N (N.pos p)) as (ds & Hp & Hv).
    change (pretty p) with (pretty (N.pos p)).
    rewrite append_cons, append_nil.
    rewrite (parse_int_minus _ _ Hp), Hv. reflexivity.
Qed.

(** The text of an integer is made of digits and, in front, a minus sign. *)
Lemma pretty_chars (P : ascii -> Prop) (z : Z) :
  (forall c d, digit_of c = Some d -> P c) -> P underscore -> P "-"%char ->
  Forall P (list_ascii_of_string (pretty z)).
Proof.
  intros Hdigit Hunder Hminus. unfold pretty, pretty_Z. destruct z as [|p|p].
  - constructor; [by apply (Hdigit _ 0%Z) | constructor].
  - destruct (digit_part_pretty_N (N.pos p)) as (ds & Hp & _).
    by apply (digit_part_chars P false _ ds).
  - destruct (digit_part_pretty_N (N.pos p)) as (ds & Hp & _).
    rewrite append_cons, append_nil. cbn [list_ascii_of_string].
    constructor; [exact Hminus | by apply (digit_part_chars P false _ ds)].
Qed.

(** The text of an integer is left alone by [strip]. *)
Lemma pretty_no_space (z : Z) :
  Forall (fun c => is_space c = false) (list_ascii_of_string (pretty z)).
Proof.
  apply pretty_chars; [exact digit_of_not_space | reflexivity | reflexivity].
Qed.

(** A cell whose trimmed text reads as an integer is typed as that integer. *)
Lemma convert_integer_text (s : string) (z : Z) :
  parse_int (strip s) = Some z -> _convert_to_appropriate_type s = VInt z.
Proof.
  intros H. unfold _convert_to_appropriate_type.
  destruct (String.eqb_spec (strip s) "N/A") as [E|_]; [by rewrite E in H|].
  destruct (String.eqb_spec (strip s) "") as [E|_]; [by rewrite E in H|].
  destruct (String.eqb_spec (strip s) "Unknown") as [E|_]; [by rewrite E in H|].
  cbn [orb]. by rewrite H.
Qed.

End IntegerText.


(** ** A listing written by the export and read by the loader *)

Section TextFacts.

Lemma append_assoc (s t u : string) : (s +:+ t) +:+ u = s +:+ (t +:+ u).
Proof.
  induction s as [|c s IH]; [by rewrite !append_nil|].
  by rewrite !append_cons, IH.
Qed.

Lemma line_end_append (t : string) : line_end +:+ t = String LF t.
Proof. unfold line_end. by rewrite append_cons, append_nil. Qed.

Lemma occurs_app (c : ascii) (s t : string) :
  occurs c (s +:+ t) = (occurs c s || occurs c t)%bool.
Proof.
  induction s as [|d s IH]; [by rewrite append_nil|].
  rewrite append_cons. cbn [occurs]. by rewrite IH, orb_assoc.
Qed.

Lemma occurs_join (c : ascii) (sep : string) (l : list string) :
  occurs c sep = false -> Forall (fun s => occurs c s = false) l ->
  occurs c (join sep l) = false.
Proof.
  intros Hsep. induction 1 as [|s l Hs Hl IH]; [reflexivity|].
  cbn [join]. destruct l as [|s' l']; [exact Hs|].
  by rewrite !occurs_app, Hs, Hsep, IH.
Qed.

Lemma occurs_Forall (c : ascii) (s : string) :
  Forall (fun d => Ascii.eqb d c = false) (list_ascii_of_string s) -> occurs c s = false.
Proof.
  induction s as [|d s IH]; [reflexivity|]. cbn [list_ascii_of_string occurs].
  intros H. apply Forall_cons in H as [Hd Hs]. by rewrite Hd, IH.
Qed.

(** A text without carriage return is read as it is. *)
Lemma universal_newlines_plain (s : string) :
  occurs CR s = false -> universal_newlines s = s.
Proof.
  induction s as [|c s IH]; [reflexivity|]. cbn [occurs].
  intros H. apply orb_false_elim in H as [Hc Hs].
  cbn [universal_newlines]. rewrite Hc. by rewrite IH.
Qed.

(** The first line of a text ends at its first line feed. *)
Lemma lines_of_first (s rest : string) :
  occurs LF s = false ->
  lines_of ((s +:+ line_end) +:+ rest) = (s +:+ line_end) :: lines_of rest.
Proof.
  intros H. rewrite append_assoc, line_end_append.
  induction s as [|c s IH].
  - rewrite !append_nil. cbn [lines_of]. by rewrite Ascii.eqb_refl.
  - cbn [occurs] in H. apply orb_false_elim in H as [Hc Hs].
    rewrite !append_cons. cbn [lines_of]. rewrite Hc. by rewrite (IH Hs).
Qed.

(** *** Trimming *)

Lemma lstrip_length (s : string) : (String.length (lstrip s) <= String.length s)%nat.
Proof.
  induction s as [|c s IH]; [done|]. cbn [lstrip].
  destruct (is_space c); cbn [String.length]; lia.
Qed.

Lemma rstrip_length (s : string) : (String.length (rstrip s) <= String.length s)%nat.
Proof.
  induction s as [|c s IH]; [done|]. cbn [rstrip].
  destruct (rstrip s) as [|d r]; [destruct (is_space c)|]; cbn [String.length] in *; lia.
Qed.

Lemma lstrip_fixed_head (c : ascii) (s : string) :
  lstrip (String c s) = String c s -> is_space c = false.
Proof.
  cbn [lstrip]. destruct (is_space c); [|done].
  intros H. pose proof (lstrip_length s) as Hl. rewrite H in Hl.
  cbn [String.length] in Hl. lia.
Qed.

(** A trimmed text has no white space at either end. *)
Lemma strip_fixed (s : string) : strip s = s -> lstrip s = s /\ rstrip s = s.
Proof.
  unfold strip. intros H.
  assert (Hl : lstrip s = s).
  { destruct s as [|c s]; [done|]. cbn [lstrip] in *.
    destruct (is_space c); [|done].
    pose proof (rstrip_length (lstrip s)) as H1.
    pose proof (lstrip_length s) as H2.
    rewrite H in H1. cbn [String.length] in H1. lia. }
  split; [exact Hl | by rewrite Hl in H].
Qed.

Lemma lstrip_app (s t : string) :
  s <> "" -> lstrip s = s -> lstrip (s +:+ t) = s +:+ t.
Proof.
  destruct s as [|c s]; [done|]. intros _ H.
  apply lstrip_fixed_head in H. rewrite append_cons. cbn [lstrip]. by rewrite H.
Qed.

Lemma rstrip_app (s t : string) :
  t <> "" -> rstrip t = t -> rstrip (s +:+ t) = s +:+ t.
Proof.
  intros Hne Ht. induction s as [|c s IH]; [by rewrite append_nil|].
  rewrite append_cons. cbn [rstrip]. rewrite IH.
  destruct (s +:+ t) as [|d r] eqn:E; [|done].
  destruct s; [rewrite append_nil in E; done | by rewrite append_cons in E].
Qed.

Lemma rstrip_cons (c : ascii) (s : string) :
  is_space c = false -> rstrip s = s -> rstrip (String c s) = String c s.
Proof.
  intros Hc Hs. cbn [rstrip]. rewrite Hs. destruct s; [by rewrite Hc | done].
Qed.

(** The line terminator is trimmed away. *)
Lemma rstrip_line_end (s : string) : rstrip (s +:+ line_end) = rstrip s.
Proof.
  induction s as [|c s IH]; [reflexivity|].
  rewrite append_cons. cbn [rstrip]. by rewrite IH.
Qed.

Lemma strip_line (s : string) : s <> "" -> strip s = s -> strip (s +:+ line_end) = s.
Proof.
  intros Hne H. apply strip_fixed in H as [Hl Hr].
  unfold strip. rewrite (lstrip_app s line_end Hne Hl). by rewrite rstrip_line_end.
Qed.

(** Joining trimmed texts with commas gives a trimmed text. *)
Lemma strip_join (l : list string) :
  Forall (fun s => strip s = s) l -> strip (join "," l) = join "," l.
Proof.
  intros H.
  assert (Hboth : lstrip (join "," l) = join "," l /\ rstrip (join "," l) = join "," l).
  { induction H as [|s l Hs Hl IH]; [done|].
    apply strip_fixed in Hs as [Hs1 Hs2].
    cbn [join]. destruct l as [|s' l']; [done|].
    destruct IH as [_ IH].
    assert (Htail : rstrip ("," +:+ join "," (s' :: l')) = "," +:+ join "," (s' :: l')).
    { rewrite append_cons, append_nil. by apply rstrip_cons. }
    split.
    - destruct s as [|c s]; [by rewrite append_nil, append_cons, append_nil|].
      by apply lstrip_app.
    - apply rstrip_app; [by rewrite append_cons | exact Htail]. }
  unfold strip. destruct Hboth as [-> ->]. reflexivity.
Qed.

(** *** Splitting at the commas *)

Lemma split_plain (s : string) : occurs comma s = false -> split comma s = [s].
Proof.
  induction s as [|c s IH]; [reflexivity|]. cbn [occurs].
  intros H. apply orb_false_elim in H as [Hc Hs].
  cbn [split]. rewrite Hc. by rewrite IH.
Qed.

Lemma split_first (s t : string) :
  occurs comma s = false -> split comma (s +:+ String comma t) = s :: split comma t.
Proof.
  induction s as [|c s IH]; intros H.
  - rewrite append_nil. cbn [split]. by rewrite Ascii.eqb_refl.
  - cbn [occurs] in H. apply orb_false_elim in H as [Hc Hs].
    rewrite append_cons. cbn [split]. rewrite Hc. by rewrite (IH Hs).
Qed.

Lemma split_join (l : list string) :
  l <> [] -> Forall (fun s => occurs comma s = false) l ->
  split comma (join "," l) = l.
Proof.
  intros Hne H. induction H as [|s l Hs Hl IH]; [done|].
  cbn [join]. destruct l as [|s' l']; [by apply split_plain|].
  rewrite append_cons, append_nil.
  change (String "," (join "," (s' :: l'))) with (String comma (join "," (s' :: l'))).
  rewrite (split_first _ _ Hs). by rewrite IH.
Qed.

Lemma join_nonempty (l : list string) : (2 <= length l)%nat -> join "," l <> "".
Proof.
  destruct l as [|s [|s' l']]; cbn [length]; [lia | lia |]. intros _.
  cbn [join]. destruct s; [by rewrite append_nil, append_cons | by rewrite append_cons].
Qed.

End TextFacts.

Section PlainCells.
Context (float_repr : Q -> string).

Lemma plain_name_spec (h : string) :
  plain_name h ->
  strip h = h /\ occurs comma h = false /\ occurs double_quote h = false /\
  occurs LF h = false /\ occurs CR h = false.
Proof.
  unfold plain_name. cbn [forallb]. rewrite !andb_True, !negb_True.
  intros (H0 & H1 & H2 & H3 & H4 & _).
  apply Is_true_true, String.eqb_eq in H0.
  split; [exact H0|]. by rewrite <- !Is_true_false.
Qed.

(** A plain text is written unquoted. *)
Lemma format_plain (v : value) :
  v <> VNone -> plain_name (py_str float_repr v) ->
  _format_csv_value float_repr v = py_str float_repr v.
Proof.
  intros Hv Hp. apply plain_name_spec in Hp as (_ & H1 & H2 & H3 & _).
  unfold _format_csv_value. destruct v; [done| | |];
    cbv zeta; cbn [existsb];
    change (ascii_of_nat 44) with comma; change (ascii_of_nat 10) with LF;
    by rewrite H1, H2, H3.
Qed.

Lemma format_names (headers : list string) :
  Forall plain_name headers ->
  map (fun h => _format_csv_value float_repr (VStr h)) headers = headers.
Proof.
  induction 1 as [|h l Hh Hl IH]; [reflexivity|]. cbn [map].
  by rewrite IH, (format_plain (VStr h)).
Qed.

(** The text of an integer has none of the characters outside the digits,
    the underscore and the minus sign. *)
Lemma pretty_free (c : ascii) (z : Z) :
  digit_of c = None -> c <> underscore -> c <> "-"%char -> occurs c (pretty z) = false.
Proof.
  intros Hd Hu Hm. apply occurs_Forall.
  apply (pretty_chars (fun d => Ascii.eqb d c = false)).
  - intros d n Hn. apply Ascii.eqb_neq. intros ->. by rewrite Hd in Hn.
  - apply Ascii.eqb_neq. by intros <-.
  - apply Ascii.eqb_neq. by intros <-.
Qed.

Lemma pretty_plain (z : Z) : plain_name (pretty z).
Proof.
  unfold plain_name.
  rewrite (strip_no_space _ (pretty_no_space z)), String.eqb_refl.
  cbn [forallb andb].
  by rewrite !pretty_free.
Qed.

(** A round-trip cell is written as a plain text, from which the loader
    types the cell again. *)
Lemma format_cell (v : value) :
  round_trip_cell v ->
  plain_name (_format_csv_value float_repr v) /\
  _convert_to_appropriate_type (_format_csv_value float_repr v) = v.
Proof.
  destruct v as [|z|q|s]; cbn [round_trip_cell]; [| |done|]; intros H.
  - split; [exact I | reflexivity].
  - rewrite (format_plain (VInt z)) by (done || apply pretty_plain).
    cbn [py_str]. split; [apply pretty_plain|].
    apply convert_integer_text.
    rewrite (strip_no_space _ (pretty_no_space z)). apply parse_int_pretty.
  - destruct H as [Hp Hc].
    rewrite (format_plain (VStr s)) by (done || exact Hp). by split.
Qed.

(** *** One line of plain cells *)

Lemma plain_line_read (cells : list string) :
  (2 <= length cells)%nat -> Forall plain_name cells ->
  strip (join "," cells +:+ line_end) = join "," cells /\
  map strip (split comma (join "," cells)) = cells.
Proof.
  intros H2 Hp.
  assert (Hs : Forall (fun s => strip s = s) cells).
  { eapply Forall_impl; [exact Hp|]. intros s Hs. by apply plain_name_spec in Hs as [? _]. }
  assert (Hc : Forall (fun s => occurs comma s = false) cells).
  { eapply Forall_impl; [exact Hp|]. intros s H. by apply plain_name_spec in H as (_ & ? & _). }
  assert (Hne : cells <> []) by (intros ->; cbn [length] in H2; lia).
  split.
  - exact (strip_line _ (join_nonempty _ H2) (strip_join _ Hs)).
  - rewrite (split_join cells Hne Hc).
    clear -Hs. induction Hs as [|s l Hs Hl IH]; [done|]. cbn [map]. by rewrite Hs, IH.
Qed.

Lemma row_of_plain (header cells : list string) :
  (2 <= length cells)%nat -> length cells = length header ->
  Forall plain_name cells ->
  row_of header (join "," cells +:+ line_end)
  = Some (dict (zip header (map _convert_to_appropriate_type cells))).
Proof.
  intros H2 Hlen Hp. destruct (plain_line_read cells H2 Hp) as [Hstrip Hsplit].
  unfold row_of. rewrite Hstrip.
  destruct (String.eqb_spec (join "," cells) "") as [E|_];
    [by apply join_nonempty in E|].
  cbv zeta. rewrite Hsplit, Hlen, Nat.eqb_refl. reflexivity.
Qed.

Lemma plain_line_terminators (cells : list string) :
  Forall plain_name cells ->
  occurs LF (join "," cells) = false /\ occurs CR (join "," cells) = false.
Proof.
  intros Hp. split; (apply occurs_join; [reflexivity|]);
    (eapply Forall_impl; [exact Hp|]); intros s H;
    by apply plain_name_spec in H as (_ & _ & _ & ? & ?).
Qed.

(** *** The whole listing *)

Lemma row_cells (headers : list string) (row : record) :
  Forall (fun h => round_trip_cell (get row h)) headers ->
  Forall plain_name
    (map (fun header => _format_csv_value float_repr (get row header)) headers) /\
  map _convert_to_appropriate_type
      (map (fun header => _format_csv_value float_repr (get row header)) headers)
  = map (get row) headers.
Proof.
  induction 1 as [|h l Hh Hl [IH1 IH2]]; [by split|].
  destruct (format_cell _ Hh) as [Hp Hc]. cbn [map]. split.
  - by constructor.
  - by rewrite Hc, IH2.
Qed.

(** A written row is read as the record of its cells. *)
Lemma row_line_read (headers : list string) (row : record) :
  (2 <= length headers)%nat ->
  Forall (fun h => round_trip_cell (get row h)) headers ->
  row_of headers (row_line float_repr headers row) = Some (projection headers row).
Proof.
  intros H2 Hrow. destruct (row_cells headers row Hrow) as [Hp Hc].
  unfold row_line. cbv zeta.
  rewrite row_of_plain; [| by rewrite length_map | by rewrite length_map | exact Hp].
  unfold projection. by rewrite Hc.
Qed.

Lemma rows_text_lines (headers : list string) (data : list record) :
  Forall (fun row => Forall (fun h => round_trip_cell (get row h)) headers) data ->
  occurs CR (fold_right (fun row text => row_line float_repr headers row +:+ text) "" data)
  = false /\
  lines_of (fold_right (fun row text => row_line float_repr headers row +:+ text) "" data)
  = map (row_line float_repr headers) data.
Proof.
  induction 1 as [|row data Hrow Hdata [IH1 IH2]]; [by split|].
  cbn [fold_right map]. destruct (row_cells headers row Hrow) as [Hp _].
  destruct (plain_line_terminators _ Hp) as [HLF HCR].
  split.
  - unfold row_line at 1. cbv zeta. rewrite !occurs_app, HCR, IH1. reflexivity.
  - unfold row_line at 1. cbv zeta. rewrite (lines_of_first _ _ HLF), IH2. reflexivity.
Qed.

Lemma rows_read (headers : list string) (data : list record) :
  (2 <= length headers)%nat ->
  Forall (fun row => Forall (fun h => round_trip_cell (get row h)) headers) data ->
  omap (row_of headers) (map (row_line float_repr headers) data)
  = map (projection headers) data.
Proof.
  intros H2. induction 1 as [|row data Hrow Hdata IH]; [reflexivity|].
  cbn [map omap list_omap]. fold (omap (row_of headers) (map (row_line float_repr headers) data)).
  by rewrite (row_line_read headers row H2 Hrow), IH.
Qed.

Lemma records_text_lines (headers : list string) (data : list record) :
  data <> [] ->
  records_text float_repr headers data
  = (join "," (map (fun h => _format_csv_value float_repr (VStr h)) headers) +:+ line_end)
    +:+ fold_right (fun row text => row_line float_repr headers row +:+ text) "" data.
Proof.
  destruct data as [|row rest]; [done|]. intros _.
  unfold records_text. by rewrite append_assoc.
Qed.

Lemma parse_records_text (headers : list string) (data : list record) :
  data <> [] -> (2 <= length headers)%nat -> Forall plain_name headers ->
  Forall (fun row => Forall (fun h => round_trip_cell (get row h)) headers) data ->
  parse_text (records_text float_repr headers data) = (map (projection headers) data, headers).
Proof.
  intros Hne H2 Hh Hrows.
  destruct (rows_text_lines headers data Hrows) as [HCR Hlines].
  destruct (plain_line_terminators _ Hh) as [HhLF HhCR].
  destruct (plain_line_read headers H2 Hh) as [Hstrip Hsplit].
  rewrite (records_text_lines headers data Hne), (format_names headers Hh).
  unfold parse_text.
  rewrite universal_newlines_plain by (rewrite !occurs_app, HhCR, HCR; reflexivity).
  rewrite (lines_of_first _ _ HhLF), Hlines. cbv zeta.
  rewrite Hstrip, Hsplit. by rewrite (rows_read headers data H2 Hrows).
Qed.

End PlainCells.



(** ** Quoted cells and the loader *)

Section Columns.
Context (float_repr : Q -> string).

Lemma split_nonempty (s : string) : (1 <= length (split comma s))%nat.
Proof.
  destruct s as [|c s]; [done|]. cbn [split].
  destruct (Ascii.eqb c comma); [cbn [length]; lia|].
  destruct (split comma s); cbn [length]; lia.
Qed.

(** Each comma adds a column. *)
Lemma split_cons_length (c : ascii) (s : string) :
  length (split comma (String c s))
  = ((if Ascii.eqb c comma then 1 else 0) + length (split comma s))%nat.
Proof.
  cbn [split]. pose proof (split_nonempty s) as H.
  destruct (Ascii.eqb c comma); [reflexivity|].
  destruct (split comma s); [cbn [length] in H; lia | reflexivity].
Qed.

Lemma split_app_length (s t : string) :
  (length (split comma (s +:+ t)) + 1
   = length (split comma s) + length (split comma t))%nat.
Proof.
  induction s as [|c s IH].
  - rewrite append_nil. cbn [split length]. lia.
  - rewrite append_cons, !split_cons_length. lia.
Qed.

Lemma space_not_comma (c : ascii) : is_space c = true -> Ascii.eqb c comma = false.
Proof.
  intros H. apply Ascii.eqb_neq. intros ->. discriminate.
Qed.

(** Trimming removes no comma. *)
Lemma lstrip_columns (s : string) :
  length (split comma (lstrip s)) = length (split comma s).
Proof.
  induction s as [|c s IH]; [reflexivity|]. cbn [lstrip].
  destruct (is_space c) eqn:Hc; [|reflexivity].
  by rewrite split_cons_length, (space_not_comma c Hc), IH.
Qed.

Lemma rstrip_columns (s : string) :
  length (split comma (rstrip s)) = length (split comma s).
Proof.
  induction s as [|c s IH]; [reflexivity|].
  rewrite split_cons_length, <- IH. cbn [rstrip].
  destruct (rstrip s) as [|d r] eqn:E.
  - destruct (is_space c) eqn:Hc.
    + by rewrite (space_not_comma c Hc).
    + by rewrite split_cons_length.
  - by rewrite (split_cons_length c).
Qed.

Lemma strip_columns (s : string) :
  length (split comma (strip s)) = length (split comma s).
Proof. unfold strip. by rewrite rstrip_columns, lstrip_columns. Qed.

(** The columns of a written line are those of its cells. *)
Lemma join_columns (cells : list string) :
  cells <> [] ->
  length (split comma (join "," cells)) = list_sum (map (fun s => length (split comma s)) cells).
Proof.
  induction cells as [|s l IH]; [done|]. intros _.
  destruct l as [|s' l'].
  - cbn [join map list_sum fold_right]. lia.
  - change (join "," (s :: s' :: l')) with (s +:+ "," +:+ join "," (s' :: l')).
    change (list_sum (map (fun s => length (split comma s)) (s :: s' :: l')))
      with (length (split comma s)
            + list_sum (map (fun s => length (split comma s)) (s' :: l')))%nat.
    rewrite <- IH by done.
    pose proof (split_app_length s ("," +:+ join "," (s' :: l'))) as H.
    rewrite append_cons, append_nil in *.
    change (String "," (join "," (s' :: l'))) with (String comma (join "," (s' :: l'))) in *.
    rewrite split_cons_length, Ascii.eqb_refl in H. lia.
Qed.

Lemma columns_lower_bound (cells : list string) (cell : string) :
  cell ∈ cells -> (2 <= length (split comma cell))%nat ->
  (length cells < list_sum (map (fun s => length (split comma s)) cells))%nat.
Proof.
  intros Hin H2. unfold list_sum.
  assert (Hall : forall l : list string,
             (length l <= fold_right Nat.add 0 (map (fun s => length (split comma s)) l))%nat).
  { clear. induction l as [|x l IH]; cbn [map fold_right length]; [lia|].
    pose proof (split_nonempty x). lia. }
  induction cells as [|s l IH]; [by apply elem_of_nil in Hin|].
  cbn [map fold_right length]. specialize (Hall l).
  apply elem_of_cons in Hin as [<-|Hin].
  - lia.
  - pose proof (split_nonempty s). specialize (IH Hin). lia.
Qed.

Lemma occurs_columns (s : string) :
  occurs comma s = true -> (2 <= length (split comma s))%nat.
Proof.
  induction s as [|c s IH]; [discriminate|]. cbn [occurs].
  rewrite split_cons_length. pose proof (split_nonempty s).
  destruct (Ascii.eqb c comma); [lia|]. cbn [orb]. intros H'. specialize (IH H'). lia.
Qed.

Lemma occurs_double_quotes (c : ascii) (s : string) :
  occurs c (double_quotes s) = occurs c s.
Proof.
  induction s as [|d s IH]; [reflexivity|]. cbn [double_quotes occurs].
  destruct (Ascii.eqb d double_quote) eqn:E.
  - apply Ascii.eqb_eq in E as ->. cbn [occurs]. rewrite IH.
    by destruct (Ascii.eqb double_quote c).
  - cbn [occurs]. by rewrite IH.
Qed.

(** A text with a comma is written between quotes, with its comma. *)
Lemma format_comma (s : string) :
  occurs comma s = true ->
  occurs comma (_format_csv_value float_repr (VStr s)) = true.
Proof.
  intros H. unfold _format_csv_value. cbv zeta. cbn [py_str existsb].
  change (ascii_of_nat 44) with comma. rewrite H. cbn [orb occurs].
  by rewrite occurs_app, occurs_double_quotes, H, orb_true_r.
Qed.

End Columns.



(** ** Quoting loses nothing *)

Section Quoting.

Lemma double_quotes_inj (s t : string) : double_quotes s = double_quotes t -> s = t.
Proof.
  revert t. induction s as [|c s IH]; intros [|d t]; cbn [double_quotes].
  - done.
  - destruct (Ascii.eqb d double_quote); discriminate.
  - destruct (Ascii.eqb c double_quote); discriminate.
  - destruct (Ascii.eqb c double_quote) eqn:Ec, (Ascii.eqb d double_quote) eqn:Ed;
      intros H.
    + apply Ascii.eqb_eq in Ec, Ed. subst c d. f_equal. apply IH. congruence.
    + assert (Hd : d = double_quote) by congruence.
      subst d. by rewrite Ascii.eqb_refl in Ed.
    + assert (Hc : c = double_quote) by congruence.
      subst c. by rewrite Ascii.eqb_refl in Ec.
    + assert (Hc : c = d) by congruence. subst d. f_equal. apply IH. congruence.
Qed.

Lemma append_quote_inj (s t : string) :
  s +:+ String double_quote "" = t +:+ String double_quote "" -> s = t.
Proof.
  revert t. induction s as [|c s IH]; intros [|d t];
    rewrite ?append_nil, ?append_cons; intros H.
  - done.
  - destruct t; rewrite ?append_nil, ?append_cons in H; congruence.
  - destruct s; rewrite ?append_nil, ?append_cons in H; congruence.
  - assert (Hc : c = d) by congruence. subst d. f_equal. apply IH. congruence.
Qed.

End Quoting.

(** X18: distinct texts are written as distinct cells: the quoting of the
    export, which doubles the quotes of a text with a comma, a quote or a line
    feed and puts it between quotes, can be undone. *)
Theorem format_csv_value_injective (float_repr : Q -> string) (s t : string) :
  _format_csv_value float_repr (VStr s) = _format_csv_value float_repr (VStr t) -> s = t.
Proof.
  unfold _format_csv_value. cbv zeta. cbn [py_str].
  destruct (existsb (fun c => occurs c s) _) eqn:Es,
           (existsb (fun c => occurs c t) _) eqn:Et; intros H.
  - injection H as H. by apply double_quotes_inj, append_quote_inj.
  - subst t. cbn [existsb occurs] in Et. rewrite Ascii.eqb_refl in Et.
    by rewrite orb_true_r in Et.
  - subst s. cbn [existsb occurs] in Es. rewrite Ascii.eqb_refl in Es.
    by rewrite orb_true_r in Es.
  - exact H.
Qed.

(** Two residences, one of them written between quotes. *)
Lemma format_csv_value_injective_witness :
  _format_csv_value (fun _ => "") (VStr "Urban, north")
  = _format_csv_value (fun _ => "") (VStr "Urban, north") /\
  "Urban, north" = "Urban, north".
Proof.
  split; [reflexivity|].
  apply (format_csv_value_injective (fun _ => "")). reflexivity.
Defined.

(** ** Text cells of the loader *)

Section Trimming.

Lemma lstrip_head (s : string) :
  lstrip s = "" \/ exists c r, lstrip s = String c r /\ is_space c = false.
Proof.
  induction s as [|c s IH]; [by left|]. cbn [lstrip].
  destruct (is_space c) eqn:Hc; [exact IH|]. right. by exists c, s.
Qed.

Lemma rstrip_idempotent (s : string) : rstrip (rstrip s) = rstrip s.
Proof.
  induction s as [|c s IH]; [reflexivity|]. cbn [rstrip].
  destruct (rstrip s) as [|d r] eqn:E.
  - destruct (is_space c) eqn:Hc; [reflexivity|]. cbn [rstrip]. by rewrite Hc.
  - cbn [rstrip] in *. by rewrite IH.
Qed.

(** Trimming a trimmed text changes nothing. *)
Lemma strip_idempotent (s : string) : strip (strip s) = strip s.
Proof.
  unfold strip. destruct (lstrip_head s) as [->|(c & r & -> & Hc)]; [reflexivity|].
  assert (Hl : lstrip (rstrip (String c r)) = rstrip (String c r)).
  { cbn [rstrip]. destruct (rstrip r); [rewrite Hc|]; cbn [lstrip]; by rewrite Hc. }
  rewrite Hl. apply rstrip_idempotent.
Qed.

End Trimming.

(** X19: a text cell of a loaded record is in normal form: it is trimmed, it is
    neither empty nor the marker N/A, and the loader types it as itself, so
    that loading it again does not change it. *)
Theorem text_cells_are_stable (s t : string) :
  _convert_to_appropriate_type s = VStr t ->
  strip t = t /\ t <> "" /\ t <> "N/A" /\ _convert_to_appropriate_type t = VStr t.
Proof.
  unfold _convert_to_appropriate_type at 1. cbv zeta.
  destruct (String.eqb_spec (strip s) "N/A") as [|H1]; [discriminate|].
  destruct (String.eqb_spec (strip s) "") as [|H2]; [discriminate|]. cbn [orb].
  destruct (String.eqb_spec (strip s) "Unknown") as [|H3].
  { intros [= <-]. repeat split; done. }
  destruct (parse_int (strip s)) as [z|] eqn:Hi; [discriminate|].
  destruct (parse_float (strip s)) as [q|] eqn:Hf; [discriminate|].
  intros [= <-]. pose proof (strip_idempotent s) as Hs.
  split; [exact Hs|]. split; [exact H2|]. split; [exact H1|].
  unfold _convert_to_appropriate_type. rewrite Hs.
  apply String.eqb_neq in H1, H2, H3. rewrite H1, H2, H3. cbn [orb].
  by rewrite Hi, Hf.
Qed.

(** A padded gender cell. *)
Lemma text_cells_are_stable_witness :
  _convert_to_appropriate_type "  Male " = VStr "Male" /\
  _convert_to_appropriate_type "Male" = VStr "Male".
Proof.
  split; [reflexivity|].
  apply (text_cells_are_stable "  Male " "Male"). reflexivity.
Defined.

(** ** The name of an exported file *)

(** X20: an export never raises and writes one file, whose name ends in the
    extension csv in some letter case: the given name when it already ends
    so, and the given name with the extension appended otherwise. *)
Theorem export_file_name (data_to_save : pyobj) (filename : string) :
  exists name,
    save_results_csv data_to_save filename = Run [Export data_to_save name] (Returns tt) /\
    endswith (lower name) ".csv" = true /\
    (name = filename \/
     (name = filename +:+ ".csv" /\ endswith (lower filename) ".csv" = false)).
Proof.
  unfold save_results_csv. destruct (endswith (lower filename) ".csv") eqn:E; cbn [negb].
  - exists filename. split; [reflexivity|]. split; [exact E | by left].
  - exists (filename +:+ ".csv"). split; [reflexivity|]. split; [|by right].
    rewrite lower_app. change (lower ".csv") with ".csv". apply endswith_app.
Qed.

(** ** The groups of the residence and sleep analyses *)

Section DisjointGroups.

Lemma numeric_values_omap (data : list record) (feature : string) (c : conditions) :
  c <> ∅ ->
  _get_numeric_values data feature (Some c)
  = omap (fun r => as_number (get r feature))
         (List.filter (fun r => record_matches r c) data).
Proof.
  intros Hc. unfold _get_numeric_values. rewrite fold_left_append_omap.
  unfold no_conditions. rewrite bool_decide_eq_false_2 by done.
  cbn [negb app]. by rewrite filter_data_conditions.
Qed.

(** Two condition sets that no record passes together select, between
    them, no more values than there are records. *)
Lemma disjoint_numeric_counts (data : list record) (feature : string) (c1 c2 : conditions) :
  c1 <> ∅ -> c2 <> ∅ ->
  (forall r, record_matches r c1 = true -> record_matches r c2 = true -> False) ->
  (len (_get_numeric_values data feature (Some c1))
   + len (_get_numeric_values data feature (Some c2)) <= len data)%Z.
Proof.
  intros H1 H2 Hdis. rewrite !numeric_values_omap by done. unfold len.
  induction data as [|r data IH]; [done|]. cbn [List.filter].
  destruct (record_matches r c1) eqn:E1, (record_matches r c2) eqn:E2.
  - destruct (Hdis r E1 E2).
  - cbn [omap list_omap].
    destruct (as_number (get r feature)); cbn [length] in *; lia.
  - cbn [omap list_omap].
    destruct (as_number (get r feature)); cbn [length] in *; lia.
  - cbn [length] in *. lia.
Qed.

Lemma dict_one_lookup {V} (k1 : string) (v1 : V) (k : string) (v : V) :
  dict [(k1, v1)] !! k = Some v <-> k = k1 /\ v = v1.
Proof.
  unfold dict. cbn [fold_left fst snd].
  rewrite lookup_insert_Some, lookup_empty. split.
  - intros [[<- <-]|[_ H]]; [done | discriminate].
  - intros [-> ->]. by left.
Qed.

Lemma matches_one (r : record) (k : string) (v : value) :
  record_matches r (dict [(k, v)]) = true <-> py_eq (get r k) v = true.
Proof.
  rewrite record_matches_spec. split.
  - intros H. apply H. by apply dict_one_lookup.
  - intros H k' v' Hk. by apply dict_one_lookup in Hk as [-> ->].
Qed.

Lemma dict_one_nonempty {V} (k : string) (v : V) : dict [(k, v)] <> ∅.
Proof. unfold dict. cbn [fold_left fst snd]. apply insert_non_empty. Qed.

(** No value equals two different texts. *)
Lemma not_two_texts (v : value) (s t : string) :
  s <> t -> py_eq v (VStr s) = true -> py_eq v (VStr t) = true -> False.
Proof.
  intros Hne. destruct v as [|z|q|u]; simpl; try discriminate.
  intros Hs Ht. apply String.eqb_eq in Hs, Ht. congruence.
Qed.

(** The entry of one residence. *)
Lemma residence_entry_count (residence : string) (ages : list Q) :
  exists b : gmap string pyobj,
    match ages with
    | [] => Returns (ODict (dict [("count", OInt 0);
                                  ("message", OStr ("No data for " +:+ residence))]))
    | _ =>
      average_age ← _calculate_mean ages;
      median_age ← _calculate_median ages;
      Returns (ODict (dict
        [("description", OStr (residence +:+ " residents with stroke"));
         ("count", OInt (len ages));
         ("average_age", of_stat average_age);
         ("median_age", of_stat median_age);
         ("modal_age", OList (mode_of ages))]))
    end = Returns (ODict b) /\
    b !! "count" = Some (OInt (len ages)) /\
    (b !! "message" = None <-> ages <> []).
Proof.
  destruct ages as [|x r] eqn:E.
  - eexists. split; [reflexivity|]. split; [reflexivity|].
    split; [intros H; vm_compute in H; discriminate | intros H; by destruct H].
  - rewrite <- E. assert (Hne : ages <> []) by (rewrite E; discriminate).
    rewrite (mean_returns ages Hne), (median_value ages Hne). outcome_simpl.
    eexists. split; [reflexivity|]. split; [reflexivity|].
    split; [intros _; exact Hne | intros _; reflexivity].
Qed.

(** One bundle of the sleep analysis. *)
Lemma sleep_bundle_count (sleep : list Q) :
  exists b : gmap string pyobj,
    sleep_bundle sleep = Returns (ODict b) /\
    b !! "count" = Some (OInt (len sleep)) /\
    b !! "mode" = Some (OList (mode_of sleep)) /\
    (sleep <> [] ->
     exists lo hi : Q,
       b !! "min" = Some (ONum (round2 lo)) /\ b !! "max" = Some (ONum (round2 hi)) /\
       Forall (fun y => lo <= y /\ y <= hi)%Q sleep).
Proof.
  unfold sleep_bundle. destruct sleep as [|x r] eqn:E.
  - eexists. split; [reflexivity|]. split; [reflexivity|]. split; [reflexivity|].
    intros H. by destruct H.
  - rewrite <- E. assert (Hne : sleep <> []) by (rewrite E; discriminate).
    rewrite (mean_returns sleep Hne), (median_value sleep Hne). outcome_simpl.
    destruct (std_dev_returns sleep None) as [sd ->]. outcome_simpl.
    destruct (py_min_spec sleep Hne) as (lo & -> & Hlo).
    destruct (py_max_spec sleep Hne) as (hi & -> & Hhi).
    destruct (percentile_returns sleep 25) as [p25 ->].
    destruct (percentile_returns sleep 75) as [p75 ->].
    rewrite E, <- E. outcome_simpl.
    eexists. split; [reflexivity|]. split; [reflexivity|]. split; [reflexivity|].
    intros _. exists lo, hi. split; [reflexivity|]. split; [reflexivity|].
    rewrite Forall_forall in *. intros y Hy. split; [by apply Hlo | by apply Hhi].
Qed.

End DisjointGroups.


